(** * Spark: link-level sending and the core (heartbeat) handler

    A shallow embedding of [Service.cpp] (Service::send, send_tracked,
    broadcast, shutdown) and of the core handler (handle_message,
    handle_event, handle_ping, handle_pong, send_ping, send_pong,
    trigger_pings, set_timer, shutdown), with the properties that the
    specification states about them.

    C++ objects that are mutated in place live in one [World] record that
    is threaded through a small state-and-exception monad.  Collaborators
    whose code is not part of these files (the tracking service, the
    services map, the session manager, the clock) are fields of the class
    [Collaborators]. *)

From stdpp Require Import gmap list strings.
From Stdlib Require Import ZArith.

Local Open Scope Z_scope.

(** ** Values *)

(** boost::uuids::uuid, a 128-bit identifier. *)
Definition uuid_t := N.

(** The address of a NetworkSession control block: what a weak_ptr or a
    shared_ptr to a session designates. *)
Abbreviation handle := nat (only parsing).

(** spark::Link: identifier, description, weak_ptr<NetworkSession>. *)
Record Link := {
  uuid : uuid_t;
  description : string;
  net : handle
}.

(** Modelled from the spec: operator== of Link is declared outside these
    files; the data model says "Equality and hashing by id only". *)
Definition Link_eqb (a b : Link) : bool := N.eqb (uuid a) (uuid b).

Inductive LinkState := LINK_UP | LINK_DOWN.

(** Service::Result, with the two enumerators that Service.cpp returns. *)
Inductive Result := OK | LINK_GONE.

(** messaging::Service; only the two tags used here are named. *)
Inductive Service := Service_Core | Service_Tracking | Service_Other (tag : N).

(** ServicesMap::Mode / EventDispatcher::Mode. *)
Inductive Mode := CLIENT | SERVER | BOTH.

(** The [Data] union of a message root, tag and table together.  Ping and
    Pong carry one unsigned 64-bit millisecond timestamp. *)
Inductive Data :=
  | Data_NONE
  | Data_Ping (timestamp : Z)
  | Data_Pong (timestamp : Z)
  | Data_Other (tag : N).

(** A finished flatbuffer holding one MessageRoot.  [tracking_id] is the
    optional tracking field, which CreateMessageRoot leaves out when it is
    given offset 0. *)
Record MessageRoot := {
  service : Service;
  tracking_id : option uuid_t;
  data : Data
}.

(** BufferHandler is a shared_ptr to the builder; after Finish the buffer
    is not modified, so it is identified with the message it holds. *)
Definition BufferHandler := MessageRoot.

(** Conversion of an integer to std::uint64_t. *)
Definition to_uint64 (z : Z) : Z := z mod 2 ^ 64.

(** std::chrono::seconds. *)
Inductive duration := seconds (n : Z).

(** boost::system::error_code; it converts to true when the value is not 0. *)
Record error_code := { value : Z }.
Definition ec_success : error_code := {| value := 0 |}.
Definition operation_aborted : error_code := {| value := 125 |}.
Definition ec_set (ec : error_code) : bool := negb (value ec =? 0).

(** Modelled from the spec: NetworkSession is the transport collaborator,
    whose [write] "queues and does not block"; a session is the queue of
    the buffers written to it, oldest first. *)
Record NetworkSession := { outbound : list BufferHandler }.

Definition enqueue (s : NetworkSession) (fbb : BufferHandler) : NetworkSession :=
  {| outbound := outbound s ++ [fbb] |}.

(** What the handlers hand to the logger. *)
Inductive LogEntry :=
  | Log_shutting_down
  | Log_unhandled_core_message (from : uuid_t)
  | Log_ping_time (ms : Z).

(** Exceptions that may cross Service::send. *)
Inductive exception := out_of_range | other_exception.

Inductive outcome (A : Type) :=
  | Returned (a : A)
  | Thrown (e : exception).
Arguments Returned {A} a.
Arguments Thrown {A} e.

(** ** Collaborators *)

Class Collaborators := {
  (** spark::TrackingService and the callback type it stores *)
  TrackingService : Type;
  TrackingHandler : Type;
  register_tracked :
    TrackingService -> Link -> uuid_t -> TrackingHandler -> duration -> TrackingService;
  TrackingService_shutdown : TrackingService -> TrackingService;
  (** spark::ServicesMap *)
  ServicesMap : Type;
  peer_services : ServicesMap -> Service -> Mode -> list Link;
  (** Sessions::stop_all, on the table of live sessions *)
  stop_all : gmap handle NetworkSession -> gmap handle NetworkSession;
  (** whether NetworkSession::write raises instead of queueing *)
  write_throws : NetworkSession -> BufferHandler -> option exception;
  (** the n-th reading of steady_clock::now(), in milliseconds since its epoch *)
  steady_clock_now : nat -> Z
}.

(** ** State *)

(** boost::asio timer: the number of async_wait operations not yet completed. *)
Record deadline_timer := { waits : nat }.

(** spark::CoreHandler. *)
Record CoreHandler := {
  peers_ : list Link;
  timer_ : deadline_timer
}.

Section Model.
Context {collab : Collaborators}.

(** spark::Service together with what it refers to: the sessions that are
    still alive, the completion handlers of [timer_] that the io_service
    has queued, the log, and the number of clock readings made so far. *)
Record World := {
  sessions : gmap handle NetworkSession;
  services_ : ServicesMap;
  track_service__ : TrackingService;
  hb_service_ : CoreHandler;
  service_ : list error_code;
  logger_ : list LogEntry;
  clock_reads : nat
}.

Definition set_sessions (f : gmap handle NetworkSession -> gmap handle NetworkSession)
    (w : World) : World :=
  {| sessions := f (sessions w); services_ := services_ w;
     track_service__ := track_service__ w; hb_service_ := hb_service_ w;
     service_ := service_ w; logger_ := logger_ w; clock_reads := clock_reads w |}.

Definition set_track_service (f : TrackingService -> TrackingService) (w : World) : World :=
  {| sessions := sessions w; services_ := services_ w;
     track_service__ := f (track_service__ w); hb_service_ := hb_service_ w;
     service_ := service_ w; logger_ := logger_ w; clock_reads := clock_reads w |}.

Definition set_hb_service (f : CoreHandler -> CoreHandler) (w : World) : World :=
  {| sessions := sessions w; services_ := services_ w;
     track_service__ := track_service__ w; hb_service_ := f (hb_service_ w);
     service_ := service_ w; logger_ := logger_ w; clock_reads := clock_reads w |}.

Definition set_service (f : list error_code -> list error_code) (w : World) : World :=
  {| sessions := sessions w; services_ := services_ w;
     track_service__ := track_service__ w; hb_service_ := hb_service_ w;
     service_ := f (service_ w); logger_ := logger_ w; clock_reads := clock_reads w |}.

Definition set_logger (f : list LogEntry -> list LogEntry) (w : World) : World :=
  {| sessions := sessions w; services_ := services_ w;
     track_service__ := track_service__ w; hb_service_ := hb_service_ w;
     service_ := service_ w; logger_ := f (logger_ w); clock_reads := clock_reads w |}.

Definition set_clock_reads (f : nat -> nat) (w : World) : World :=
  {| sessions := sessions w; services_ := services_ w;
     track_service__ := track_service__ w; hb_service_ := hb_service_ w;
     service_ := service_ w; logger_ := logger_ w; clock_reads := f (clock_reads w) |}.

Definition set_peers (f : list Link -> list Link) (c : CoreHandler) : CoreHandler :=
  {| peers_ := f (peers_ c); timer_ := timer_ c |}.

Definition set_timer_ (f : deadline_timer -> deadline_timer) (c : CoreHandler) : CoreHandler :=
  {| peers_ := peers_ c; timer_ := f (timer_ c) |}.

(** ** The monad of member functions: state, and exceptions that unwind *)

Definition M (A : Type) : Type := World -> outcome A * World.

Definition ret {A} (a : A) : M A := fun w => (Returned a, w).

Definition bind {A B} (m : M A) (k : A -> M B) : M B :=
  fun w =>
    match m w with
    | (Returned a, w') => k a w'
    | (Thrown e, w') => (Thrown e, w')
    end.

Definition throw {A} (e : exception) : M A := fun w => (Thrown e, w).

Definition try_catch {A} (m : M A) (handler : exception -> M A) : M A :=
  fun w =>
    match m w with
    | (Returned a, w') => (Returned a, w')
    | (Thrown e, w') => handler e w'
    end.

Definition modify (f : World -> World) : M unit := fun w => (Returned tt, f w).

Definition gets {A} (f : World -> A) : M A := fun w => (Returned (f w), w).

Notation "x <- m ;;; k" := (bind m (fun x => k))
  (at level 20, m at level 99, k at level 200, only parsing).
Notation "m ;;; k" := (bind m (fun _ => k))
  (at level 100, k at level 200, right associativity, only parsing).

(** for(auto& x : xs) body(x) *)
Fixpoint for_each {A} (xs : list A) (body : A -> M unit) : M unit :=
  match xs with
  | [] => ret tt
  | x :: xs' => body x ;;; for_each xs' body
  end.

(** ** Collaborator calls *)

(** weak_ptr::lock: a shared_ptr to the session when it is still alive,
    an empty one otherwise. *)
Definition lock (p : handle) : M (option handle) :=
  gets (fun w => match sessions w !! p with Some _ => Some p | None => None end).

(** NetworkSession::write through a shared_ptr.  The pointer came from
    [lock], so the session exists; the last branch is not reachable. *)
Definition write (p : handle) (fbb : BufferHandler) : M unit :=
  fun w =>
    match sessions w !! p with
    | Some s =>
        match write_throws s fbb with
        | Some e => (Thrown e, w)
        | None => (Returned tt, set_sessions (insert p (enqueue s fbb)) w)
        end
    | None => (Returned tt, w)
    end.

Definition log (entry : LogEntry) : M unit :=
  modify (set_logger (fun l => l ++ [entry])).

(** duration_cast<milliseconds>(steady_clock::now().time_since_epoch()).count() *)
Definition now_ms : M Z :=
  fun w => (Returned (steady_clock_now (clock_reads w)), set_clock_reads S w).

(** ** Service.cpp *)

(** Service::send, a function-try-block with one handler. *)
Definition send (link : Link) (fbb : BufferHandler) : M Result :=
  try_catch
    (net <- lock (net link) ;;;
     match net with
     | None => ret LINK_GONE
     | Some p => write p fbb ;;; ret OK
     end)
    (fun e =>
       match e with
       | out_of_range => ret LINK_GONE
       | other_exception => throw other_exception
       end).

(** Service::send_tracked *)
Definition send_tracked (link : Link) (id : uuid_t) (fbb : BufferHandler)
    (callback : TrackingHandler) : M Result :=
  modify (set_track_service (fun t => register_tracked t link id callback (seconds 5))) ;;;
  send link fbb.

(** Service::broadcast *)
Definition broadcast (service : Service) (mode : Mode) (fbb : BufferHandler) : M Result :=
  links <- gets (fun w => peer_services (services_ w) service mode) ;;;
  for_each links (fun link =>
    shared_net <- lock (net link) ;;;
    match shared_net with
    | Some p => write p fbb
    | None => ret tt
    end) ;;;
  ret OK.

(** ** The core handler *)

(** messaging::Ping::timestamp and messaging::Pong::timestamp on the table
    that [data()] points to; a field that is absent reads as 0. *)
Definition Ping_timestamp (d : Data) : Z :=
  match d with Data_Ping t => t | _ => 0 end.

Definition Pong_timestamp (d : Data) : Z :=
  match d with Data_Pong t => t | _ => 0 end.

(** messaging::CreateMessageRoot(fbb, service, 0, type, table) and Finish. *)
Definition CreateMessageRoot (svc : Service) (d : Data) : BufferHandler :=
  {| service := svc; tracking_id := None; data := d |}.

(** Completion of every outstanding wait of [timer_] with [ec]: the
    handlers are queued on the io_service and the timer has none left. *)
Definition complete_waits (ec : error_code) : M unit :=
  modify (fun w =>
    set_hb_service (set_timer_ (fun _ => {| waits := 0 |}))
      (set_service (fun q => q ++ replicate (waits (timer_ (hb_service_ w))) ec) w)).

(** basic_waitable_timer::cancel *)
Definition timer_cancel : M unit := complete_waits operation_aborted.

(** basic_waitable_timer::expires_from_now, which first cancels the waits
    that are outstanding *)
Definition timer_expires_from_now : M unit := complete_waits operation_aborted.

(** basic_waitable_timer::async_wait *)
Definition timer_async_wait : M unit :=
  modify (set_hb_service (set_timer_ (fun t => {| waits := S (waits t) |}))).

(** CoreHandler::set_timer *)
Definition set_timer : M unit :=
  timer_expires_from_now ;;;
  timer_async_wait.

(** CoreHandler::send_pong *)
Definition send_pong (link : Link) (time : Z) : M unit :=
  let fbb := CreateMessageRoot Service_Core (Data_Pong time) in
  _ <- send link fbb ;;;
  ret tt.

(** CoreHandler::send_ping; [time] is a signed count that CreatePing takes
    as std::uint64_t. *)
Definition send_ping (link : Link) : M unit :=
  time <- now_ms ;;;
  let fbb := CreateMessageRoot Service_Core (Data_Ping (to_uint64 time)) in
  _ <- send link fbb ;;;
  ret tt.

(** CoreHandler::handle_ping *)
Definition handle_ping (link : Link) (message : MessageRoot) : M unit :=
  let ping := data message in
  send_pong link (Ping_timestamp ping).

(** CoreHandler::handle_pong; the difference of a signed count and a
    std::uint64_t is computed in std::uint64_t. *)
Definition handle_pong (link : Link) (message : MessageRoot) : M unit :=
  let pong := data message in
  time <- now_ms ;;;
  if negb (Pong_timestamp pong =? 0)
  then log (Log_ping_time (to_uint64 (time - Pong_timestamp pong)))
  else ret tt.

(** CoreHandler::handle_message *)
Definition handle_message (link : Link) (message : MessageRoot) : M unit :=
  match data message with
  | Data_Ping _ => handle_ping link message
  | Data_Pong _ => handle_pong link message
  | _ => log (Log_unhandled_core_message (uuid link))
  end.

(** std::list::remove: erases every element that compares equal to [link]. *)
Definition list_remove (link : Link) (l : list Link) : list Link :=
  List.filter (fun x => negb (Link_eqb x link)) l.

(** CoreHandler::handle_event, under [lock_]. *)
Definition handle_event (link : Link) (state : LinkState) : M unit :=
  match state with
  | LINK_UP => modify (set_hb_service (set_peers (cons link)))
  | LINK_DOWN => modify (set_hb_service (set_peers (list_remove link)))
  end.

(** CoreHandler::trigger_pings, under [lock_] once past the test of [ec]. *)
Definition trigger_pings (ec : error_code) : M unit :=
  if ec_set ec then ret tt
  else
    peers <- gets (fun w => peers_ (hb_service_ w)) ;;;
    for_each peers send_ping ;;;
    set_timer.

(** CoreHandler::CoreHandler: no peers, and the first wait is started. *)
Definition CoreHandler_init : M unit :=
  modify (set_hb_service (fun _ => {| peers_ := []; timer_ := {| waits := 0 |} |})) ;;;
  set_timer.

(** CoreHandler::shutdown *)
Definition CoreHandler_shutdown : M unit := timer_cancel.

(** Service::shutdown.  The listener keeps no state that is modelled here. *)
Definition shutdown : M unit :=
  log Log_shutting_down ;;;
  modify (set_track_service TrackingService_shutdown) ;;;
  CoreHandler_shutdown ;;;
  modify (set_sessions stop_all).

(** ** The io_service, as far as [timer_] is concerned *)

Inductive io_event :=
  | timer_expires   (** the deadline passes: outstanding waits complete with success *)
  | run_one.        (** the oldest queued completion handler is invoked *)

Definition io_step (ev : io_event) : M unit :=
  match ev with
  | timer_expires => complete_waits ec_success
  | run_one =>
      fun w =>
        match service_ w with
        | [] => (Returned tt, w)
        | ec :: q => trigger_pings ec (set_service (fun _ => q) w)
        end
  end.

Definition io_run (evs : list io_event) : M unit := for_each evs io_step.

(** The dispatcher handing a sequence of link events to the core handler. *)
Definition deliver_events (evs : list (Link * LinkState)) : M unit :=
  for_each evs (fun e => handle_event (fst e) (snd e)).

(** ** Vocabulary of the statements *)

(** The transport's contract in the spec: [write] queues and returns. *)
Definition write_never_throws : Prop :=
  forall (s : NetworkSession) (fbb : BufferHandler), write_throws s fbb = None.

(** The parts of the world that writing to sessions leaves alone. *)
Definition same_but_sessions (w w' : World) : Prop :=
  services_ w' = services_ w /\
  track_service__ w' = track_service__ w /\
  hb_service_ w' = hb_service_ w /\
  service_ w' = service_ w /\
  logger_ w' = logger_ w /\
  clock_reads w' = clock_reads w.

(** How many entries of a snapshot designate the session at [p]. *)
Definition writes_to (p : handle) (links : list Link) : nat :=
  length (List.filter (fun l => Nat.eqb (net l) p) links).

(** A session after [msgs] have been queued on it, in order. *)
Definition with_queued (msgs : list BufferHandler) (s : NetworkSession) : NetworkSession :=
  {| outbound := outbound s ++ msgs |}.

(** Whether the peer list holds an element that compares equal to [l]. *)
Definition tracked (l : Link) (w : World) : bool :=
  existsb (fun x => Link_eqb x l) (peers_ (hb_service_ w)).

(** How many elements of the peer list compare equal to [l]. *)
Definition copies (l : Link) (w : World) : nat :=
  length (List.filter (fun x => Link_eqb x l) (peers_ (hb_service_ w))).

(** The membership that a sequence of events leaves for [l]: that of the
    last event about a link equal to [l], or the initial one. *)
Fixpoint after_events (l : Link) (evs : list (Link * LinkState)) (init : bool) : bool :=
  match evs with
  | [] => init
  | (l', st) :: evs' =>
      after_events l evs'
        (if Link_eqb l' l
         then match st with LINK_UP => true | LINK_DOWN => false end
         else init)
  end.

(** Only the peer list of the core handler differs between [w] and [w']. *)
Definition same_but_peers (w w' : World) : Prop :=
  w' = set_hb_service (set_peers (fun _ => peers_ (hb_service_ w'))) w.

(** The result of [send] when the transport's write returns normally. *)
Definition sent (link : Link) (fbb : BufferHandler) (w : World) : World :=
  match sessions w !! net link with
  | Some s => set_sessions (insert (net link) (enqueue s fbb)) w
  | None => w
  end.

(** The Pong that answers a Ping with timestamp [ts]. *)
Definition pong_for (ts : Z) : BufferHandler :=
  {| service := Service_Core; tracking_id := None; data := Data_Pong ts |}.

(** The Ping built at the clock reading number [n]. *)
Definition ping_at (n : nat) : BufferHandler :=
  {| service := Service_Core; tracking_id := None;
     data := Data_Ping (to_uint64 (steady_clock_now n)) |}.

(** The Pings that a round over [links], started at clock reading
    [reads], queues on the session at [p]: one per link that designates
    it, each with the reading made for that link. *)
Fixpoint pings_to (p : handle) (links : list Link) (reads : nat) : list BufferHandler :=
  match links with
  | [] => []
  | l :: ls =>
      (if Nat.eqb (net l) p then [ping_at reads] else []) ++ pings_to p ls (S reads)
  end.

(** What a round leaves alone: all but the sessions and the count of
    clock readings. *)
Definition same_but_sessions_and_clock (w w' : World) : Prop :=
  services_ w' = services_ w /\
  track_service__ w' = track_service__ w /\
  hb_service_ w' = hb_service_ w /\
  service_ w' = service_ w /\
  logger_ w' = logger_ w.

(** The timer has no wait outstanding and no queued completion reports
    success: nothing is left that could start a round. *)
Definition timer_quiet (w : World) : Prop :=
  waits (timer_ (hb_service_ w)) = 0%nat /\
  Forall (fun ec => ec_set ec = true) (service_ w).

(** The worlds that sending [fbbs] to [link], one after the other, leaves. *)
Definition after_sends (link : Link) (fbbs : list BufferHandler) (w : World) : World :=
  foldl (fun w' fbb => (send link fbb w').2) w fbbs.

(** The world that sending [fbb] to each of [links] in turn leaves. *)
Definition after_send_to_each (links : list Link) (fbb : BufferHandler) (w : World) : World :=
  foldl (fun w' link => (send link fbb w').2) w links.

(** The session of every link of [links] is gone. *)
Definition all_gone (links : list Link) (w : World) : Prop :=
  Forall (fun l => sessions w !! net l = None) links.

(** One wait is outstanding and no completion is queued: the state the
    constructor and every completed round leave the timer in. *)
Definition armed (w : World) : Prop :=
  waits (timer_ (hb_service_ w)) = 1%nat /\ service_ w = [].

(** [k] times: the deadline passes, then the queued handler is invoked. *)
Definition heartbeat_cycles (k : nat) : list io_event :=
  concat (replicate k [timer_expires; run_one]).

(** What can happen to a running service, one call at a time. *)
Inductive core_op :=
  | op_event (link : Link) (state : LinkState)
  | op_message (link : Link) (message : MessageRoot)
  | op_io (ev : io_event)
  | op_set_timer
  | op_shutdown.

Definition run_op (op : core_op) : M unit :=
  match op with
  | op_event link state => handle_event link state
  | op_message link message => handle_message link message
  | op_io ev => io_step ev
  | op_set_timer => set_timer
  | op_shutdown => shutdown
  end.

Definition run_ops (ops : list core_op) : M unit := for_each ops run_op.

(** The timer, the queued completions, the peer list, the tracking
    service and the services map are in [w'] as they are in [w]. *)
Definition same_handler_state (w w' : World) : Prop :=
  hb_service_ w' = hb_service_ w /\
  service_ w' = service_ w /\
  track_service__ w' = track_service__ w /\
  services_ w' = services_ w.

End Model.

(** ** The collaborators as the specification describes them *)

(** Modelled from the spec: TrackingService is not part of these files.
    A pending request records the target link, the callback and the
    timeout; [track] "records a PendingRequest; the id must not already be
    pending (fails with DuplicateCorrelation otherwise)". *)
Record PendingRequest := {
  target : Link;
  request_callback : nat;
  request_timeout : duration
}.

Inductive TrackResult := Tracked | DuplicateCorrelation.

Definition track (t : gmap N PendingRequest) (link : Link) (id : uuid_t)
    (callback : nat) (timeout : duration) : gmap N PendingRequest * TrackResult :=
  match t !! id with
  | Some _ => (t, DuplicateCorrelation)
  | None =>
      (<[id := {| target := link; request_callback := callback;
                  request_timeout := timeout |}]> t, Tracked)
  end.

Definition is_pending (id : uuid_t) (t : gmap N PendingRequest) : bool :=
  match t !! id with Some _ => true | None => false end.

(** Modelled from the spec: ServicesMap is not part of these files.  An
    entry is (service-type, Link, role); "CLIENT matches CLIENT and BOTH;
    SERVER matches SERVER and BOTH; BOTH matches all". *)
Definition Service_eqb (a b : Service) : bool :=
  match a, b with
  | Service_Core, Service_Core => true
  | Service_Tracking, Service_Tracking => true
  | Service_Other m, Service_Other n => N.eqb m n
  | _, _ => false
  end.

Definition role_matches (filter role : Mode) : bool :=
  match filter, role with
  | BOTH, _ => true
  | _, BOTH => true
  | CLIENT, CLIENT => true
  | SERVER, SERVER => true
  | _, _ => false
  end.

Definition peers_of (m : list (Service * Link * Mode)) (svc : Service) (filter : Mode)
    : list Link :=
  List.map (fun e => snd (fst e))
    (List.filter (fun e => Service_eqb (fst (fst e)) svc && role_matches filter (snd e)) m).

(** The collaborators of the specification: [register_tracked] is [track]
    with its result dropped, shutting down resolves every pending request
    and stops every session, [write] always queues, and the clock starts
    at one second and advances seven milliseconds between readings. *)
Definition spec_collaborators : Collaborators := {|
  TrackingService := gmap N PendingRequest;
  TrackingHandler := nat;
  register_tracked := fun t link id callback timeout =>
                        fst (track t link id callback timeout);
  TrackingService_shutdown := fun _ => ∅;
  ServicesMap := list (Service * Link * Mode);
  peer_services := peers_of;
  stop_all := fun _ => ∅;
  write_throws := fun _ _ => None;
  steady_clock_now := fun n => 1000 + 7 * Z.of_nat n
|}.

(** ** A small world: peer A is connected, peer B's session is gone *)

Definition linkA : Link := {| uuid := 1%N; description := "peer A"; net := 1%nat |}.
Definition linkB : Link := {| uuid := 2%N; description := "peer B"; net := 2%nat |}.

Definition hello : BufferHandler :=
  {| service := Service_Other 7%N; tracking_id := None; data := Data_Other 3%N |}.

Definition world0 : @World spec_collaborators :=
  @Build_World spec_collaborators
    (* sessions *) {[ 1%nat := {| outbound := [] |} ]}
    (* services_ *) [ (Service_Core, linkA, BOTH); (Service_Core, linkB, CLIENT) ]
    (* track_service__ *)
    {[ 42%N := {| target := linkA; request_callback := 0%nat;
                  request_timeout := seconds 5 |} ]}
    (* hb_service_ *) {| peers_ := [linkA]; timer_ := {| waits := 1%nat |} |}
    (* service_ *) []
    (* logger_ *) []
    (* clock_reads *) 0%nat.

(** Collaborators whose transport fails at first: the write to a session
    with nothing queued raises an exception other than out_of_range, the
    write to a session with one buffer queued raises out_of_range, and
    later writes queue. *)
Definition faulty_collaborators : Collaborators := {|
  TrackingService := gmap N PendingRequest;
  TrackingHandler := nat;
  register_tracked := fun t link id callback timeout =>
                        fst (track t link id callback timeout);
  TrackingService_shutdown := fun _ => ∅;
  ServicesMap := list (Service * Link * Mode);
  peer_services := peers_of;
  stop_all := fun _ => ∅;
  write_throws := fun s _ =>
                    match outbound s with
                    | [] => Some other_exception
                    | [_] => Some out_of_range
                    | _ => None
                    end;
  steady_clock_now := fun n => 1000 + 7 * Z.of_nat n
|}.

(** A link with the identifier of [linkA] and another session. *)
Definition linkA' : Link :=
  {| uuid := 1%N; description := "peer A, again"; net := 3%nat |}.

(** [world0] after every session has gone. *)
Definition world_gone : @World spec_collaborators :=
  set_sessions (fun _ => ∅) world0.

(** A world with the failing transport in which the handler of the timer
    is running (no wait is outstanding): peer B's session is gone and
    peer A's session has [queued] on it. *)
Definition faulty_world (queued : list BufferHandler) : @World faulty_collaborators :=
  @Build_World faulty_collaborators
    {[ 1%nat := {| outbound := queued |} ]}
    [ (Service_Core, linkB, CLIENT); (Service_Core, linkA, BOTH) ]
    ∅
    {| peers_ := [linkB; linkA]; timer_ := {| waits := 0%nat |} |}
    []
    []
    0%nat.

Section Properties.
Context {collab : Collaborators}.

Notation "x <- m ;;; k" := (bind m (fun x => k))
  (at level 20, m at level 99, k at level 200, only parsing).

(** ** Service::send *)

Lemma send_unresolvable link fbb w :
  sessions w !! net link = None ->
  send link fbb w = (Returned LINK_GONE, w).
Proof.
  intros Hgone. unfold send, try_catch, bind, lock, gets.
  rewrite Hgone. reflexivity.
Qed.

Lemma send_resolvable link fbb w s :
  sessions w !! net link = Some s ->
  send link fbb w =
    match write_throws s fbb with
    | None => (Returned OK, set_sessions (insert (net link) (enqueue s fbb)) w)
    | Some out_of_range => (Returned LINK_GONE, w)
    | Some other_exception => (Thrown other_exception, w)
    end.
Proof.
  intros Hlive. unfold send, try_catch, bind, lock, gets, write.
  rewrite Hlive. simpl. rewrite Hlive.
  destruct (write_throws s fbb) as [[]|]; reflexivity.
Qed.

Lemma send_track_service link fbb w :
  track_service__ (send link fbb w).2 = track_service__ w.
Proof.
  destruct (sessions w !! net link) as [s|] eqn:Hs.
  - rewrite (send_resolvable _ _ _ _ Hs).
    destruct (write_throws s fbb) as [[]|]; reflexivity.
  - rewrite (send_unresolvable _ _ _ Hs). reflexivity.
Qed.


(** ** Service::send_tracked *)

(** C2.  [send_tracked] is [send] run in the world in which the request
    has already been registered, its result is that of [send], and the
    tracking service it leaves is the registered one whatever [send]
    did, a failed send included. *)
Theorem send_tracked_registers_then_sends link id fbb callback w :
  let registered :=
    register_tracked (track_service__ w) link id callback (seconds 5) in
  send_tracked link id fbb callback w =
    send link fbb (set_track_service (fun _ => registered) w) /\
  track_service__ (send_tracked link id fbb callback w).2 = registered /\
  (sessions w !! net link = None ->
     (send_tracked link id fbb callback w).1 = Returned LINK_GONE /\
     track_service__ (send_tracked link id fbb callback w).2 = registered).
Proof.
  intros registered.
  assert (Hseq : send_tracked link id fbb callback w =
                 send link fbb (set_track_service (fun _ => registered) w))
    by reflexivity.
  assert (Htrack : track_service__ (send_tracked link id fbb callback w).2 = registered).
  { rewrite Hseq, send_track_service. reflexivity. }
  split; [exact Hseq | split; [exact Htrack | ]].
  intros Hgone. split; [ | exact Htrack].
  rewrite Hseq, send_unresolvable; [reflexivity | exact Hgone].
Qed.

(** ** Service::broadcast *)

Lemma same_but_sessions_refl w : same_but_sessions w w.
Proof. repeat split. Qed.

Lemma same_but_sessions_set f w : same_but_sessions w (set_sessions f w).
Proof. repeat split. Qed.

Lemma same_but_sessions_trans w1 w2 w3 :
  same_but_sessions w1 w2 -> same_but_sessions w2 w3 -> same_but_sessions w1 w3.
Proof.
  unfold same_but_sessions.
  intros (?&?&?&?&?&?) (?&?&?&?&?&?). repeat split; congruence.
Qed.

Lemma with_queued_enqueue msgs fbb s :
  with_queued msgs (enqueue s fbb) = with_queued (fbb :: msgs) s.
Proof. unfold with_queued, enqueue. simpl. by rewrite <- app_assoc. Qed.

Lemma with_queued_nil s : with_queued [] s = s.
Proof. destruct s. unfold with_queued. simpl. by rewrite app_nil_r. Qed.

Lemma broadcast_loop (Hw : write_never_throws) fbb links w :
  exists w',
    for_each links (fun link =>
      shared_net <- lock (net link) ;;;
      match shared_net with
      | Some p => write p fbb
      | None => ret tt
      end) w = (Returned tt, w') /\
    (forall p, sessions w' !! p =
               with_queued (replicate (writes_to p links) fbb) <$> sessions w !! p) /\
    same_but_sessions w w'.
Proof.
  revert w. induction links as [|l ls IH]; intros w.
  - exists w. split; [reflexivity|]. split; [|apply same_but_sessions_refl].
    intros p. simpl. destruct (sessions w !! p) as [s|]; simpl; [|done].
    by rewrite with_queued_nil.
  - cbn [for_each]. unfold bind at 1. unfold bind at 1, lock, gets.
    destruct (sessions w !! net l) as [s|] eqn:Hs.
    + unfold write. rewrite Hs, (Hw s fbb).
      destruct (IH (set_sessions (insert (net l) (enqueue s fbb)) w))
        as (w' & Hrun & Hq & Hframe).
      exists w'. split; [exact Hrun|]. split.
      * intros p. rewrite Hq. unfold writes_to. cbn [List.filter sessions set_sessions].
        destruct (Nat.eqb_spec (net l) p) as [<-|Hne].
        -- rewrite lookup_insert_eq, Hs. cbn. f_equal. apply with_queued_enqueue.
        -- by rewrite lookup_insert_ne.
      * eapply same_but_sessions_trans; [apply same_but_sessions_set|exact Hframe].
    + destruct (IH w) as (w' & Hrun & Hq & Hframe).
      exists w'. split; [exact Hrun|]. split; [|exact Hframe].
      intros p. rewrite Hq. unfold writes_to. cbn [List.filter].
      destruct (Nat.eqb_spec (net l) p) as [<-|Hne]; [|done].
      by rewrite Hs.
Qed.

(** C6.  When the transport's write returns normally, [broadcast]
    returns OK; a session that is alive has the buffer queued once for
    each entry of the snapshot that designates it, an entry whose session
    is gone changes nothing, and nothing but the sessions is touched. *)
Theorem broadcast_writes_resolvable_skips_gone (Hw : write_never_throws)
    svc mode fbb w :
  exists w',
    broadcast svc mode fbb w = (Returned OK, w') /\
    (forall p,
       sessions w' !! p =
       with_queued
         (replicate (writes_to p (peer_services (services_ w) svc mode)) fbb)
         <$> sessions w !! p) /\
    same_but_sessions w w'.
Proof.
  destruct (broadcast_loop Hw fbb (peer_services (services_ w) svc mode) w)
    as (w' & Hrun & Hq & Hframe).
  exists w'. split; [|split; assumption].
  unfold broadcast. unfold bind at 1. unfold gets. unfold bind at 1.
  rewrite Hrun. reflexivity.
Qed.

(** ** The core handler: link events *)

Lemma Link_eqb_refl l : Link_eqb l l = true.
Proof. apply N.eqb_refl. Qed.

Lemma Link_eqb_sym a b : Link_eqb a b = Link_eqb b a.
Proof. apply N.eqb_sym. Qed.

Lemma Link_eqb_trans_l a b c :
  Link_eqb a b = true -> Link_eqb a c = Link_eqb b c.
Proof. unfold Link_eqb. intros ->%N.eqb_eq. reflexivity. Qed.

Lemma existsb_list_remove link l peers :
  existsb (fun x => Link_eqb x l) (list_remove link peers) =
  (if Link_eqb link l then false else existsb (fun x => Link_eqb x l) peers).
Proof.
  induction peers as [|x xs IH]; simpl.
  - by destruct (Link_eqb link l).
  - destruct (Link_eqb x link) eqn:Hx; simpl.
    + rewrite IH. rewrite (Link_eqb_trans_l _ _ l Hx).
      by destruct (Link_eqb link l).
    + rewrite IH. destruct (Link_eqb link l) eqn:Hl; [|done].
      rewrite (Link_eqb_sym x l), <- (Link_eqb_trans_l _ _ x Hl).
      by rewrite Link_eqb_sym, Hx.
Qed.

Lemma list_remove_untracked link peers :
  existsb (fun x => Link_eqb x link) peers = false ->
  list_remove link peers = peers.
Proof.
  induction peers as [|x xs IH]; simpl; [done|].
  intros [Hx Hxs]%orb_false_iff. rewrite Hx. simpl. by rewrite IH.
Qed.

Lemma filter_list_remove link peers :
  List.filter (fun x => Link_eqb x link) (list_remove link peers) = [].
Proof.
  induction peers as [|x xs IH]; simpl; [done|].
  destruct (Link_eqb x link) eqn:Hx; simpl; [done|]. by rewrite Hx.
Qed.

Lemma handle_event_tracked link st l w :
  tracked l (handle_event link st w).2 =
  (if Link_eqb link l
   then match st with LINK_UP => true | LINK_DOWN => false end
   else tracked l w).
Proof.
  unfold tracked. destruct st; simpl.
  - by destruct (Link_eqb link l).
  - apply existsb_list_remove.
Qed.

Lemma same_but_peers_refl w : same_but_peers w w.
Proof. by destruct w as [? ? ? [? ?] ? ? ?]. Qed.

Lemma same_but_peers_trans w1 w2 w3 :
  same_but_peers w1 w2 -> same_but_peers w2 w3 -> same_but_peers w1 w3.
Proof.
  unfold same_but_peers. intros H12 H23. rewrite H23 at 1. rewrite H12 at 1.
  reflexivity.
Qed.

Lemma handle_event_same_but_peers link st w :
  same_but_peers w (handle_event link st w).2.
Proof. destruct st; reflexivity. Qed.

Lemma deliver_events_run evs l w :
  exists w',
    deliver_events evs w = (Returned tt, w') /\
    tracked l w' = after_events l evs (tracked l w) /\
    same_but_peers w w'.
Proof.
  revert w. induction evs as [|[link st] evs IH]; intros w.
  - exists w. repeat split. apply same_but_peers_refl.
  - destruct (IH (handle_event link st w).2) as (w' & Hrun & Htr & Hsame).
    exists w'. split; [|split].
    + unfold deliver_events in *. cbn [for_each]. unfold bind at 1.
      destruct st; exact Hrun.
    + rewrite Htr. cbn [after_events]. by rewrite handle_event_tracked.
    + eapply same_but_peers_trans; [apply handle_event_same_but_peers|exact Hsame].
Qed.

(** C7.  An UP event puts the link at the front of the peer list and a
    DOWN event erases every element equal to it; either touches nothing
    but the peer list.  After any sequence of events a link is tracked
    exactly when the last event about it was UP (or, with no event about
    it, when it was tracked before), and a DOWN event for a link that is
    not tracked leaves the world as it was. *)
Theorem handle_event_membership link l evs w :
  (handle_event link LINK_UP w =
     (Returned tt, set_hb_service (set_peers (cons link)) w) /\
   tracked link (handle_event link LINK_UP w).2 = true) /\
  (handle_event link LINK_DOWN w =
     (Returned tt, set_hb_service (set_peers (list_remove link)) w) /\
   tracked link (handle_event link LINK_DOWN w).2 = false) /\
  (exists w',
     deliver_events evs w = (Returned tt, w') /\
     tracked l w' = after_events l evs (tracked l w) /\
     same_but_peers w w') /\
  (tracked link w = false -> handle_event link LINK_DOWN w = (Returned tt, w)).
Proof.
  split; [|split; [|split]].
  - split; [reflexivity|]. rewrite handle_event_tracked. by rewrite Link_eqb_refl.
  - split; [reflexivity|]. rewrite handle_event_tracked. by rewrite Link_eqb_refl.
  - apply deliver_events_run.
  - unfold tracked. intros Hun. simpl. unfold modify. f_equal.
    destruct w as [? ? ? [peers tm] ? ? ?]. unfold set_hb_service, set_peers. simpl in *.
    by rewrite (list_remove_untracked _ _ Hun).
Qed.

(** ** The core handler: pings and pongs *)

Lemma send_run (Hw : write_never_throws) link fbb w :
  exists r, send link fbb w = (Returned r, sent link fbb w).
Proof.
  unfold sent. destruct (sessions w !! net link) as [s|] eqn:Hs.
  - exists OK. rewrite (send_resolvable _ _ _ _ Hs). by rewrite (Hw s fbb).
  - exists LINK_GONE. by apply send_unresolvable.
Qed.

Lemma sent_lookup link fbb w p :
  sessions (sent link fbb w) !! p =
  (if Nat.eqb (net link) p then with_queued [fbb] else id) <$> sessions w !! p.
Proof.
  unfold sent. destruct (Nat.eqb_spec (net link) p) as [<-|Hne].
  - destruct (sessions w !! net link) as [s|] eqn:Hs; simpl.
    + rewrite lookup_insert_eq. reflexivity.
    + rewrite Hs. reflexivity.
  - destruct (sessions w !! net link) as [s|] eqn:Hs; simpl.
    + rewrite lookup_insert_ne by done. by destruct (sessions w !! p).
    + by destruct (sessions w !! p).
Qed.

Lemma sent_same_but_sessions link fbb w : same_but_sessions w (sent link fbb w).
Proof.
  unfold sent. destruct (sessions w !! net link);
    [apply same_but_sessions_set|apply same_but_sessions_refl].
Qed.

Lemma send_pong_run (Hw : write_never_throws) link ts w :
  send_pong link ts w = (Returned tt, sent link (pong_for ts) w).
Proof.
  unfold send_pong. unfold bind.
  destruct (send_run Hw link (CreateMessageRoot Service_Core (Data_Pong ts)) w)
    as [r ->].
  reflexivity.
Qed.

Lemma send_ping_run (Hw : write_never_throws) link w :
  send_ping link w =
  (Returned tt, sent link (ping_at (clock_reads w)) (set_clock_reads S w)).
Proof.
  unfold send_ping. unfold bind at 1. unfold now_ms. unfold bind.
  destruct (send_run Hw link
              (CreateMessageRoot Service_Core
                 (Data_Ping (to_uint64 (steady_clock_now (clock_reads w)))))
              (set_clock_reads S w)) as [r ->].
  reflexivity.
Qed.

(** C4.  A Ping that arrives on a link whose session is alive is answered
    by queueing one buffer on that session, a core-service Pong whose
    timestamp is the Ping's; no other session and no other part of the
    world changes, the core handler's own state included.  When the
    session is already gone nothing changes at all. *)
Theorem handle_ping_echoes_timestamp (Hw : write_never_throws)
    link svc tid ts w :
  let ping := {| service := svc; tracking_id := tid; data := Data_Ping ts |} in
  exists w',
    handle_message link ping w = (Returned tt, w') /\
    hb_service_ w' = hb_service_ w /\
    same_but_sessions w w' /\
    (forall p, p <> net link -> sessions w' !! p = sessions w !! p) /\
    (forall s, sessions w !! net link = Some s ->
       sessions w' !! net link = Some (with_queued [pong_for ts] s) /\
       data (pong_for ts) = Data_Pong ts) /\
    (sessions w !! net link = None -> w' = w).
Proof.
  intros ping. exists (sent link (pong_for ts) w).
  split; [|split; [|split; [|split; [|split]]]].
  - unfold handle_message, ping. cbn [data]. unfold handle_ping. cbn [data Ping_timestamp].
    apply (send_pong_run Hw).
  - apply sent_same_but_sessions.
  - apply sent_same_but_sessions.
  - intros p Hp. rewrite sent_lookup.
    destruct (Nat.eqb_spec (net link) p) as [Heq|_]; [congruence|].
    by destruct (sessions w !! p).
  - intros s Hs. split; [|reflexivity].
    rewrite sent_lookup, Nat.eqb_refl, Hs. reflexivity.
  - intros Hgone. unfold sent. by rewrite Hgone.
Qed.

(** C8, as the code has it.  A Pong whose echoed timestamp is not zero
    makes the handler read the clock once and hand the logger one entry,
    the difference of the reading and the echoed timestamp computed in
    unsigned 64-bit arithmetic; nothing else changes.  The entry is the
    plain difference when the echoed timestamp does not exceed the
    reading. *)
Theorem handle_pong_logs_elapsed link svc tid ts w :
  ts <> 0 ->
  let pong := {| service := svc; tracking_id := tid; data := Data_Pong ts |} in
  let time := steady_clock_now (clock_reads w) in
  handle_message link pong w =
    (Returned tt,
     set_logger (fun l => l ++ [Log_ping_time (to_uint64 (time - ts))])
       (set_clock_reads S w)) /\
  (0 <= ts <= time -> time < 2 ^ 64 -> to_uint64 (time - ts) = time - ts).
Proof.
  intros Hts pong time. split.
  - unfold handle_message, pong. cbn [data]. unfold handle_pong. cbn [data Pong_timestamp].
    unfold bind, now_ms.
    destruct (Z.eqb_spec ts 0) as [Heq|_]; [contradiction|]. reflexivity.
  - intros Hle Hlt. unfold to_uint64. apply Z.mod_small. lia.
Qed.

(** C10.  A Pong whose echoed timestamp is zero makes the handler read the
    clock and do nothing else: no entry reaches the logger, and the peer
    list, the timer and the sessions are as before. *)
Theorem handle_pong_zero_timestamp_ignored link svc tid w :
  let pong := {| service := svc; tracking_id := tid; data := Data_Pong 0 |} in
  handle_message link pong w = (Returned tt, set_clock_reads S w) /\
  logger_ (handle_message link pong w).2 = logger_ w /\
  hb_service_ (handle_message link pong w).2 = hb_service_ w /\
  sessions (handle_message link pong w).2 = sessions w.
Proof. repeat split. Qed.

(** ** The core handler: the ping timer *)

Lemma pings_to_length p links reads :
  length (pings_to p links reads) = writes_to p links.
Proof.
  revert reads. unfold writes_to.
  induction links as [|l ls IH]; intros reads; simpl; [done|].
  rewrite length_app, IH. by destruct (Nat.eqb (net l) p).
Qed.

Lemma ping_loop (Hw : write_never_throws) links w :
  exists w',
    for_each links send_ping w = (Returned tt, w') /\
    (forall p, sessions w' !! p =
               with_queued (pings_to p links (clock_reads w)) <$> sessions w !! p) /\
    clock_reads w' = (clock_reads w + length links)%nat /\
    same_but_sessions_and_clock w w'.
Proof.
  revert w. induction links as [|l ls IH]; intros w.
  - exists w. split; [reflexivity|]. split; [|split; [simpl; lia|by repeat split]].
    intros p. simpl. destruct (sessions w !! p); simpl; [|done].
    by rewrite with_queued_nil.
  - set (w1 := sent l (ping_at (clock_reads w)) (set_clock_reads S w)).
    destruct (IH w1) as (w' & Hrun & Hq & Hclock & Hframe).
    pose proof (sent_same_but_sessions l (ping_at (clock_reads w)) (set_clock_reads S w))
      as (Hs1 & Hs2 & Hs3 & Hs4 & Hs5 & Hs6).
    fold w1 in Hs1, Hs2, Hs3, Hs4, Hs5, Hs6. simpl in Hs1, Hs2, Hs3, Hs4, Hs5, Hs6.
    exists w'. split; [|split; [|split]].
    + cbn [for_each]. unfold bind at 1. rewrite (send_ping_run Hw). exact Hrun.
    + intros p. rewrite Hq, Hs6. unfold w1. rewrite sent_lookup.
      cbn [pings_to sessions set_clock_reads].
      destruct (sessions w !! p) as [s|]; [|done].
      destruct (Nat.eqb (net l) p); cbn; f_equal.
      * unfold with_queued. simpl. by rewrite <- app_assoc.
    + rewrite Hclock, Hs6. simpl. lia.
    + destruct Hframe as (?&?&?&?&?). repeat split; congruence.
Qed.

Lemma io_step_quiet ev w :
  timer_quiet w ->
  exists w',
    io_step ev w = (Returned tt, w') /\
    timer_quiet w' /\
    sessions w' = sessions w /\
    clock_reads w' = clock_reads w /\
    peers_ (hb_service_ w') = peers_ (hb_service_ w).
Proof.
  intros [Hwaits Hqueue]. destruct ev.
  - eexists. split; [reflexivity|]. simpl. rewrite Hwaits.
    repeat split. simpl. by rewrite app_nil_r.
  - unfold io_step. destruct (service_ w) as [|ec q] eqn:Hq.
    + exists w. repeat split; try assumption. by rewrite Hq.
    + apply Forall_cons in Hqueue as [Hec Hrest].
      unfold trigger_pings. rewrite Hec.
      eexists. split; [reflexivity|]. repeat split; assumption.
Qed.

Lemma io_run_quiet evs w :
  timer_quiet w ->
  exists w',
    io_run evs w = (Returned tt, w') /\
    timer_quiet w' /\
    sessions w' = sessions w /\
    clock_reads w' = clock_reads w /\
    peers_ (hb_service_ w') = peers_ (hb_service_ w).
Proof.
  revert w. induction evs as [|ev evs IH]; intros w Hquiet.
  - exists w. repeat split; apply Hquiet.
  - destruct (io_step_quiet ev w Hquiet) as (w1 & Hstep & Hq1 & Hs1 & Hc1 & Hp1).
    destruct (IH w1 Hq1) as (w' & Hrun & Hq' & Hs' & Hc' & Hp').
    exists w'. split; [|repeat split; try apply Hq'; congruence].
    unfold io_run in *. cbn [for_each]. unfold bind at 1. by rewrite Hstep.
Qed.

Lemma shutdown_quiet w :
  Forall (fun ec => ec_set ec = true) (service_ w) ->
  exists w',
    shutdown w = (Returned tt, w') /\
    timer_quiet w' /\
    service_ w' =
      service_ w ++ replicate (waits (timer_ (hb_service_ w))) operation_aborted.
Proof.
  intros Hqueue. eexists. split; [reflexivity|]. split; [|reflexivity].
  split; [reflexivity|]. simpl. apply Forall_app. split; [exact Hqueue|].
  apply Forall_replicate. reflexivity.
Qed.

Lemma CoreHandler_init_starts_wait w :
  CoreHandler_init w =
    (Returned tt,
     set_hb_service (fun _ => {| peers_ := []; timer_ := {| waits := 1 |} |}) w).
Proof.
  unfold CoreHandler_init, bind, modify, set_timer, bind.
  simpl. f_equal. destruct w as [? ? ? ? q ? ?]. unfold set_hb_service, set_service.
  simpl. by rewrite app_nil_r.
Qed.

Lemma trigger_pings_fires (Hw : write_never_throws) ec w :
  ec_set ec = false ->
  exists w',
    trigger_pings ec w = (Returned tt, w') /\
    (forall p, sessions w' !! p =
               with_queued (pings_to p (peers_ (hb_service_ w)) (clock_reads w))
                 <$> sessions w !! p) /\
    waits (timer_ (hb_service_ w')) = 1%nat /\
    peers_ (hb_service_ w') = peers_ (hb_service_ w) /\
    clock_reads w' = (clock_reads w + length (peers_ (hb_service_ w)))%nat.
Proof.
  intros Hec.
  destruct (ping_loop Hw (peers_ (hb_service_ w)) w)
    as (w1 & Hrun & Hq & Hclock & (_ & _ & Hhb & _ & _)).
  eexists. split.
  - unfold trigger_pings. rewrite Hec. unfold bind at 1. unfold gets.
    unfold bind at 1. rewrite Hrun. reflexivity.
  - simpl. rewrite Hhb. repeat split; assumption.
Qed.

(** X16.  A firing whose error code is not set reads the clock once for
    each link of the peer list and queues on that link's session a Ping
    with that reading, then starts the next wait; a firing whose error
    code is set changes nothing.  After [shutdown], reached with no
    completion already queued as successful, no sequence of timer expiries
    and handler invocations queues anything on a session, reads the clock
    or leaves a wait outstanding. *)
Theorem trigger_pings_round_and_cancellation (Hw : write_never_throws) ec evs w :
  (ec_set ec = false ->
   exists w',
     trigger_pings ec w = (Returned tt, w') /\
     (forall p, sessions w' !! p =
                with_queued (pings_to p (peers_ (hb_service_ w)) (clock_reads w))
                  <$> sessions w !! p) /\
     waits (timer_ (hb_service_ w')) = 1%nat /\
     peers_ (hb_service_ w') = peers_ (hb_service_ w)) /\
  (ec_set ec = true -> trigger_pings ec w = (Returned tt, w)) /\
  (Forall (fun ec => ec_set ec = true) (service_ w) ->
   exists w1 w2,
     shutdown w = (Returned tt, w1) /\
     io_run evs w1 = (Returned tt, w2) /\
     sessions w2 = sessions w1 /\
     clock_reads w2 = clock_reads w1 /\
     waits (timer_ (hb_service_ w2)) = 0%nat).
Proof.
  split; [|split].
  - intros Hec. destruct (trigger_pings_fires Hw ec w Hec) as (w' & ? & ? & ? & ? & _).
    by exists w'.
  - intros Hec. unfold trigger_pings. by rewrite Hec.
  - intros Hqueue.
    destruct (shutdown_quiet w Hqueue) as (w1 & Hdown & Hquiet & _).
    destruct (io_run_quiet evs w1 Hquiet) as (w2 & Hrun & [Hwaits _] & Hs & Hc & _).
    by exists w1, w2.
Qed.

(** C9.  Two UP events for one link leave two more copies of it in the
    peer list; the next round then queues two Pings on its session ahead
    of those for the copies that were there before, with successive
    clock readings; one DOWN event leaves no copy. *)
Theorem peer_list_keeps_duplicates (Hw : write_never_throws) link w :
  let w2 := (handle_event link LINK_UP (handle_event link LINK_UP w).2).2 in
  copies link w2 = (2 + copies link w)%nat /\
  peers_ (hb_service_ w2) = link :: link :: peers_ (hb_service_ w) /\
  (forall s, sessions w !! net link = Some s ->
     exists w',
       trigger_pings ec_success w2 = (Returned tt, w') /\
       sessions w' !! net link =
         Some (with_queued
                 (ping_at (clock_reads w) :: ping_at (S (clock_reads w)) ::
                  pings_to (net link) (peers_ (hb_service_ w)) (S (S (clock_reads w))))
                 s)) /\
  copies link (handle_event link LINK_DOWN w2).2 = 0%nat.
Proof.
  intros w2. split; [|split; [|split]].
  - unfold copies. simpl. by rewrite Link_eqb_refl.
  - reflexivity.
  - intros s Hs.
    destruct (trigger_pings_fires Hw ec_success w2 eq_refl) as (w' & Hrun & Hq & _).
    exists w'. split; [exact Hrun|].
    rewrite Hq. simpl. rewrite Nat.eqb_refl, Hs. reflexivity.
  - unfold copies. cbn [handle_event modify snd hb_service_ set_hb_service peers_ set_peers].
    by rewrite filter_list_remove.
Qed.

Lemma send_ignores_track_service link fbb t w :
  (send link fbb (set_track_service (fun _ => t) w)).1 = (send link fbb w).1.
Proof.
  destruct (sessions w !! net link) as [s|] eqn:Hs.
  - rewrite (send_resolvable link fbb (set_track_service (fun _ => t) w) s Hs).
    rewrite (send_resolvable link fbb w s Hs).
    by destruct (write_throws s fbb) as [[]|].
  - rewrite (send_unresolvable link fbb (set_track_service (fun _ => t) w) Hs).
    by rewrite (send_unresolvable link fbb w Hs).
Qed.

(** C3, as the code has it.  [send_tracked] has no timeout argument: the
    request is registered with a timeout of five seconds.  It makes no
    duplicate check: its outcome is that of [send] on the same link and
    buffer, and is the same whatever the tracking service holds, so a
    correlation id that is already pending changes nothing in it. *)
Theorem send_tracked_fixed_timeout_result_of_send link id fbb callback w :
  track_service__ (send_tracked link id fbb callback w).2 =
    register_tracked (track_service__ w) link id callback (seconds 5) /\
  (send_tracked link id fbb callback w).1 = (send link fbb w).1 /\
  (forall t,
     (send_tracked link id fbb callback (set_track_service (fun _ => t) w)).1 =
     (send_tracked link id fbb callback w).1).
Proof.
  assert (Hres : forall w', (send_tracked link id fbb callback w').1 =
                            (send link fbb w').1).
  { intros w'.
    change ((send link fbb
               (set_track_service
                  (fun _ => register_tracked (track_service__ w') link id callback
                              (seconds 5)) w')).1 = (send link fbb w').1).
    apply send_ignores_track_service. }
  split; [|split].
  - change (send_tracked link id fbb callback w) with
      (send link fbb
         (set_track_service
            (fun t => register_tracked t link id callback (seconds 5)) w)).
    by rewrite send_track_service.
  - apply Hres.
  - intros t. rewrite !Hres. apply send_ignores_track_service.
Qed.

(** ** Further properties of Service::send and Service::broadcast *)

Lemma send_snd (Hw : write_never_throws) link fbb w :
  (send link fbb w).2 = sent link fbb w.
Proof. destruct (send_run Hw link fbb w) as [r ->]. reflexivity. Qed.

(** X2.  With a transport whose write returns normally, buffers sent to
    one link one after the other are queued on its session in the order
    they were sent, behind what was queued before; no other session
    changes. *)
Theorem sends_queue_in_order (Hw : write_never_throws) link fbbs w s :
  sessions w !! net link = Some s ->
  sessions (after_sends link fbbs w) !! net link = Some (with_queued fbbs s) /\
  (forall p, p <> net link ->
     sessions (after_sends link fbbs w) !! p = sessions w !! p).
Proof.
  revert w s. induction fbbs as [|fbb fbbs IH]; intros w s Hs.
  - simpl. rewrite with_queued_nil. by split.
  - unfold after_sends. cbn [foldl]. fold (after_sends link fbbs (send link fbb w).2).
    rewrite (send_snd Hw).
    assert (Hs1 : sessions (sent link fbb w) !! net link = Some (enqueue s fbb)).
    { rewrite sent_lookup, Nat.eqb_refl, Hs. reflexivity. }
    destruct (IH _ _ Hs1) as [Hq Hother]. split.
    + rewrite Hq. f_equal. apply with_queued_enqueue.
    + intros p Hp. rewrite (Hother p Hp), sent_lookup.
      destruct (Nat.eqb_spec (net link) p) as [Heq|_]; [congruence|].
      by destruct (sessions w !! p).
Qed.

Lemma broadcast_loop_sends (Hw : write_never_throws) fbb links w :
  for_each links (fun link =>
    shared_net <- lock (net link) ;;;
    match shared_net with
    | Some p => write p fbb
    | None => ret tt
    end) w = (Returned tt, after_send_to_each links fbb w).
Proof.
  revert w. induction links as [|l ls IH]; intros w; [reflexivity|].
  unfold after_send_to_each. cbn [for_each foldl].
  fold (after_send_to_each ls fbb (send l fbb w).2).
  rewrite (send_snd Hw). unfold bind at 1. unfold bind at 1, lock, gets, sent.
  destruct (sessions w !! net l) as [s|] eqn:Hs.
  - unfold write. rewrite Hs, (Hw s fbb). apply IH.
  - apply IH.
Qed.

(** X3.  With a transport whose write returns normally, [broadcast]
    leaves the world that sending the buffer to each link of the snapshot
    in turn leaves, the results of those sends being dropped. *)
Theorem broadcast_is_send_to_each (Hw : write_never_throws) svc mode fbb w :
  broadcast svc mode fbb w =
    (Returned OK, after_send_to_each (peer_services (services_ w) svc mode) fbb w).
Proof.
  unfold broadcast. unfold bind at 1. unfold gets. unfold bind at 1.
  by rewrite (broadcast_loop_sends Hw).
Qed.

Lemma broadcast_loop_prefix_gone fbb pre rest w :
  all_gone pre w ->
  for_each (pre ++ rest) (fun link =>
    shared_net <- lock (net link) ;;;
    match shared_net with
    | Some p => write p fbb
    | None => ret tt
    end) w =
  for_each rest (fun link =>
    shared_net <- lock (net link) ;;;
    match shared_net with
    | Some p => write p fbb
    | None => ret tt
    end) w.
Proof.
  induction 1 as [|l pre Hl Hpre IH]; [reflexivity|].
  cbn [app for_each]. unfold bind at 1. unfold bind at 1, lock, gets.
  rewrite Hl. exact IH.
Qed.

(** X4.  When the snapshot is empty, or the session of every link in it
    is gone, [broadcast] returns OK and changes nothing, whatever the
    transport's write would do. *)
Theorem broadcast_all_gone svc mode fbb w :
  all_gone (peer_services (services_ w) svc mode) w ->
  broadcast svc mode fbb w = (Returned OK, w).
Proof.
  intros Hgone. unfold broadcast. unfold bind at 1. unfold gets. unfold bind at 1.
  rewrite <- (app_nil_r (peer_services _ _ _)).
  by rewrite (broadcast_loop_prefix_gone fbb _ [] w Hgone).
Qed.

(** X5.  [broadcast] has no handler of its own: when the write to the
    first link of the snapshot whose session is alive raises, the
    exception leaves [broadcast], out_of_range included, nothing has been
    written and the links behind it are not reached; [send] to that link
    turns out_of_range into LINK_GONE. *)
Theorem broadcast_propagates_write_failure svc mode fbb w pre l post s e :
  peer_services (services_ w) svc mode = pre ++ l :: post ->
  all_gone pre w ->
  sessions w !! net l = Some s ->
  write_throws s fbb = Some e ->
  broadcast svc mode fbb w = (Thrown e, w) /\
  (e = out_of_range -> send l fbb w = (Returned LINK_GONE, w)).
Proof.
  intros Hsnap Hgone Hs He. split.
  - unfold broadcast. unfold bind at 1. unfold gets. unfold bind at 1.
    rewrite Hsnap, (broadcast_loop_prefix_gone fbb pre (l :: post) w Hgone).
    cbn [for_each]. unfold bind at 1. unfold bind at 1, lock, gets.
    rewrite Hs. unfold write. by rewrite Hs, He.
  - intros ->. by rewrite (send_resolvable l fbb w s Hs), He.
Qed.

(** ** Further properties of the core handler: link events *)

(** X6.  For a link that is not tracked, an UP event followed by a DOWN
    event leaves the world exactly as it was. *)
Theorem handle_event_up_then_down link w :
  tracked link w = false ->
  (handle_event link LINK_DOWN (handle_event link LINK_UP w).2).2 = w.
Proof.
  unfold tracked. intros Hun.
  destruct w as [? ? ? [peers tm] ? ? ?]. simpl in *.
  unfold set_hb_service, set_peers, list_remove. simpl.
  rewrite Link_eqb_refl. simpl.
  fold (list_remove link peers). by rewrite (list_remove_untracked _ _ Hun).
Qed.

Lemma filter_list_remove_other link l peers :
  Link_eqb link l = false ->
  List.filter (fun x => Link_eqb x l) (list_remove link peers) =
  List.filter (fun x => Link_eqb x l) peers.
Proof.
  intros Hne. induction peers as [|x xs IH]; simpl; [done|].
  destruct (Link_eqb x link) eqn:Hx; simpl.
  - rewrite (Link_eqb_trans_l _ _ l Hx), Hne. exact IH.
  - by rewrite IH.
Qed.

Lemma filter_list_remove_same link l peers :
  Link_eqb link l = true ->
  List.filter (fun x => Link_eqb x l) (list_remove link peers) = [].
Proof.
  intros Heq. induction peers as [|x xs IH]; simpl; [done|].
  destruct (Link_eqb x link) eqn:Hx; simpl; [done|].
  rewrite (Link_eqb_sym x l), <- (Link_eqb_trans_l _ _ x Heq), Link_eqb_sym, Hx.
  exact IH.
Qed.

Lemma list_remove_sublist link peers : sublist (list_remove link peers) peers.
Proof.
  induction peers as [|x xs IH]; simpl; [constructor|].
  destruct (negb (Link_eqb x link)); by constructor.
Qed.

Lemma list_remove_idemp link peers :
  list_remove link (list_remove link peers) = list_remove link peers.
Proof.
  apply list_remove_untracked. by rewrite existsb_list_remove, Link_eqb_refl.
Qed.

(** X7.  A DOWN event erases the elements whose identifier is the link's,
    whatever their description or session, and only those: for a link
    with another identifier the number of copies is unchanged, the peers
    that stay keep their order, and a second DOWN event for the same link
    changes nothing more. *)
Theorem handle_event_down_is_selective link l w :
  let w' := (handle_event link LINK_DOWN w).2 in
  (uuid link = uuid l -> copies l w' = 0%nat) /\
  (uuid link <> uuid l -> copies l w' = copies l w) /\
  sublist (peers_ (hb_service_ w')) (peers_ (hb_service_ w)) /\
  (handle_event link LINK_DOWN w').2 = w'.
Proof.
  intros w'. unfold w', copies.
  cbn [handle_event modify snd hb_service_ set_hb_service peers_ set_peers].
  split; [|split; [|split]].
  - intros Heq. rewrite filter_list_remove_same; [done|]. by apply N.eqb_eq.
  - intros Hne. rewrite filter_list_remove_other; [done|]. by apply N.eqb_neq.
  - apply list_remove_sublist.
  - unfold set_hb_service, set_peers. simpl. by rewrite list_remove_idemp.
Qed.

(** ** Further properties of the core handler: rounds that meet failures *)

Lemma ping_loop_prefix_gone pre rest w :
  all_gone pre w ->
  for_each (pre ++ rest) send_ping w =
  for_each rest send_ping (set_clock_reads (fun n => (length pre + n)%nat) w).
Proof.
  revert w. induction pre as [|l pre IH]; intros w Hgone.
  - simpl. by destruct w.
  - apply Forall_cons in Hgone as [Hl Hpre].
    cbn [app for_each]. unfold bind at 1.
    unfold send_ping at 1. unfold bind at 1. unfold now_ms. unfold bind at 1.
    rewrite send_unresolvable by exact Hl. unfold ret.
    rewrite (IH (set_clock_reads S w)) by exact Hpre.
    f_equal. unfold set_clock_reads. simpl. f_equal. lia.
Qed.

Lemma ping_loop_all_gone links w :
  all_gone links w ->
  for_each links send_ping w =
  (Returned tt, set_clock_reads (fun n => (length links + n)%nat) w).
Proof.
  intros Hgone. rewrite <- (app_nil_r links) at 1.
  by rewrite (ping_loop_prefix_gone links [] w Hgone).
Qed.

(** X8.  Heartbeats are not escalated: a round over a peer list in which
    every session is gone (the empty list included) returns normally,
    reads the clock once for each peer, writes nothing and starts the next
    wait, whatever the transport's write would do. *)
Theorem trigger_pings_all_gone ec w :
  ec_set ec = false ->
  all_gone (peers_ (hb_service_ w)) w ->
  exists w',
    trigger_pings ec w = (Returned tt, w') /\
    sessions w' = sessions w /\
    waits (timer_ (hb_service_ w')) = 1%nat /\
    peers_ (hb_service_ w') = peers_ (hb_service_ w) /\
    clock_reads w' = (clock_reads w + length (peers_ (hb_service_ w)))%nat.
Proof.
  intros Hec Hgone. eexists. split.
  - unfold trigger_pings. rewrite Hec. unfold bind at 1. unfold gets.
    unfold bind at 1.
    rewrite (ping_loop_all_gone _ w Hgone). reflexivity.
  - simpl. repeat split. lia.
Qed.

(** X9.  A write that raises during a round, at the first peer whose
    session is alive: an exception other than out_of_range leaves
    [trigger_pings] before [set_timer] is reached, so the timer is left
    as it was and nothing has been written; out_of_range is absorbed by
    [send], and when the remaining sessions are gone the round ends
    normally and starts the next wait. *)
Theorem trigger_pings_write_failure ec w pre l post s e :
  ec_set ec = false ->
  peers_ (hb_service_ w) = pre ++ l :: post ->
  all_gone pre w ->
  sessions w !! net l = Some s ->
  write_throws s (ping_at (length pre + clock_reads w)) = Some e ->
  (e = other_exception ->
   exists w',
     trigger_pings ec w = (Thrown other_exception, w') /\
     sessions w' = sessions w /\
     hb_service_ w' = hb_service_ w /\
     service_ w' = service_ w) /\
  (e = out_of_range -> all_gone post w ->
   exists w',
     trigger_pings ec w = (Returned tt, w') /\
     sessions w' = sessions w /\
     waits (timer_ (hb_service_ w')) = 1%nat).
Proof.
  intros Hec Hpeers Hgone Hs He.
  assert (Hsend : send l (ping_at (length pre + clock_reads w))
                    (set_clock_reads S
                       (set_clock_reads (fun n => (length pre + n)%nat) w)) =
                  match e with
                  | out_of_range =>
                      (Returned LINK_GONE,
                       set_clock_reads S
                         (set_clock_reads (fun n => (length pre + n)%nat) w))
                  | other_exception =>
                      (Thrown other_exception,
                       set_clock_reads S
                         (set_clock_reads (fun n => (length pre + n)%nat) w))
                  end).
  { rewrite (send_resolvable l _ _ s) by exact Hs. by rewrite He. }
  split.
  - intros ->. eexists. split.
    + unfold trigger_pings. rewrite Hec. unfold bind at 1. unfold gets.
      unfold bind at 1. rewrite Hpeers, (ping_loop_prefix_gone pre _ w Hgone).
      cbn [for_each]. unfold bind at 1.
      unfold send_ping at 1. unfold bind at 1. unfold now_ms. unfold bind at 1.
      cbn [clock_reads set_clock_reads]. unfold ping_at in Hsend.
      unfold CreateMessageRoot. rewrite Hsend. reflexivity.
    + repeat split.
  - intros -> Hpost. eexists. split.
    + unfold trigger_pings. rewrite Hec. unfold bind at 1. unfold gets.
      unfold bind at 1. rewrite Hpeers, (ping_loop_prefix_gone pre _ w Hgone).
      cbn [for_each]. unfold bind at 1.
      unfold send_ping at 1. unfold bind at 1. unfold now_ms. unfold bind at 1.
      cbn [clock_reads set_clock_reads]. unfold ping_at in Hsend.
      unfold CreateMessageRoot. rewrite Hsend. unfold ret.
      rewrite (ping_loop_all_gone post _) by exact Hpost.
      reflexivity.
    + repeat split.
Qed.

(** ** Further properties of the core handler: what a call leaves alone *)

Lemma same_handler_state_refl w : same_handler_state w w.
Proof. repeat split. Qed.

Lemma same_handler_state_trans w1 w2 w3 :
  same_handler_state w1 w2 -> same_handler_state w2 w3 -> same_handler_state w1 w3.
Proof.
  unfold same_handler_state. intros (?&?&?&?) (?&?&?&?). repeat split; congruence.
Qed.

Lemma send_same_handler_state link fbb w :
  same_handler_state w (send link fbb w).2.
Proof.
  destruct (sessions w !! net link) as [s|] eqn:Hs.
  - rewrite (send_resolvable link fbb w s Hs).
    destruct (write_throws s fbb) as [[]|]; repeat split.
  - rewrite (send_unresolvable link fbb w Hs). repeat split.
Qed.

Lemma send_pong_snd link ts w :
  (send_pong link ts w).2 =
  (send link (CreateMessageRoot Service_Core (Data_Pong ts)) w).2.
Proof.
  unfold send_pong, bind.
  by destruct (send link (CreateMessageRoot Service_Core (Data_Pong ts)) w) as [[r|e] w1].
Qed.

Lemma send_ping_snd link w :
  (send_ping link w).2 =
  (send link (ping_at (clock_reads w)) (set_clock_reads S w)).2.
Proof.
  unfold send_ping. unfold bind at 1. unfold now_ms. unfold bind.
  unfold ping_at, CreateMessageRoot.
  by destruct (send link _ (set_clock_reads S w)) as [[r|e] w1].
Qed.

Lemma send_ping_same_handler_state link w :
  same_handler_state w (send_ping link w).2.
Proof.
  rewrite send_ping_snd.
  apply (same_handler_state_trans _ (set_clock_reads S w));
    [repeat split|apply send_same_handler_state].
Qed.

Lemma for_each_cons {A} (body : A -> M unit) x xs w :
  for_each (x :: xs) body w =
  match body x w with
  | (Returned _, w1) => for_each xs body w1
  | (Thrown e, w1) => (Thrown e, w1)
  end.
Proof. reflexivity. Qed.

Lemma for_each_app {A} (body : A -> M unit) xs ys w :
  for_each (xs ++ ys) body w =
  match for_each xs body w with
  | (Returned _, w1) => for_each ys body w1
  | (Thrown e, w1) => (Thrown e, w1)
  end.
Proof.
  revert w. induction xs as [|x xs IH]; intros w; [reflexivity|].
  cbn [app]. rewrite !for_each_cons.
  destruct (body x w) as [[[]|e] w1]; [apply IH|reflexivity].
Qed.

Lemma ping_loop_same_handler_state links w :
  same_handler_state w (for_each links send_ping w).2.
Proof.
  revert w. induction links as [|l ls IH]; intros w; [apply same_handler_state_refl|].
  rewrite for_each_cons.
  pose proof (send_ping_same_handler_state l w) as Hl.
  destruct (send_ping l w) as [[[]|e] w1]; simpl in Hl; [|exact Hl].
  eapply same_handler_state_trans; [exact Hl|apply IH].
Qed.

Lemma trigger_pings_timer ec w :
  timer_ (hb_service_ (trigger_pings ec w).2) = timer_ (hb_service_ w) \/
  waits (timer_ (hb_service_ (trigger_pings ec w).2)) = 1%nat.
Proof.
  unfold trigger_pings. destruct (ec_set ec); [by left|].
  unfold bind, gets.
  pose proof (ping_loop_same_handler_state (peers_ (hb_service_ w)) w) as (Hhb & _).
  destruct (for_each (peers_ (hb_service_ w)) send_ping w) as [[[]|e] w1];
    simpl in Hhb.
  - right. reflexivity.
  - left. simpl. by rewrite Hhb.
Qed.

Lemma handle_message_same_handler_state link message w :
  same_handler_state w (handle_message link message w).2.
Proof.
  unfold handle_message. destruct (data message); try (repeat split; done).
  - unfold handle_ping. rewrite send_pong_snd. apply send_same_handler_state.
  - unfold handle_pong, bind, now_ms.
    destruct (negb (Pong_timestamp (data message) =? 0)); repeat split.
Qed.

(** X10.  No message changes the state the handler keeps: whatever its
    kind and whatever the transport's write does, [handle_message] leaves
    the peer list, the timer, the queued completions, the tracking service
    and the services map as they were.  A message that is neither a Ping
    nor a Pong only hands the logger one warning that names the link. *)
Theorem handle_message_keeps_handler_state link message w :
  same_handler_state w (handle_message link message w).2 /\
  ((forall ts, data message <> Data_Ping ts) ->
   (forall ts, data message <> Data_Pong ts) ->
   handle_message link message w =
     (Returned tt,
      set_logger (fun l => l ++ [Log_unhandled_core_message (uuid link)]) w)).
Proof.
  split; [apply handle_message_same_handler_state|].
  intros Hping Hpong. unfold handle_message.
  destruct (data message) as [|ts|ts|tag]; try reflexivity.
  - by destruct (Hping ts).
  - by destruct (Hpong ts).
Qed.

Lemma run_op_waits op w :
  (waits (timer_ (hb_service_ w)) <= 1)%nat ->
  (waits (timer_ (hb_service_ (run_op op w).2)) <= 1)%nat.
Proof.
  intros Hle. destruct op as [link st|link message|ev| |]; simpl.
  - by destruct st.
  - destruct (handle_message_same_handler_state link message w) as (-> & _). exact Hle.
  - destruct ev; [simpl; lia|]. unfold io_step.
    destruct (service_ w) as [|ec q]; [exact Hle|].
    destruct (trigger_pings_timer ec (set_service (fun _ => q) w)) as [-> | ->];
      [exact Hle|lia].
  - lia.
  - lia.
Qed.

Lemma run_ops_waits ops w :
  (waits (timer_ (hb_service_ w)) <= 1)%nat ->
  (waits (timer_ (hb_service_ (run_ops ops w).2)) <= 1)%nat.
Proof.
  revert w. unfold run_ops. induction ops as [|op ops IH]; intros w Hle; [exact Hle|].
  rewrite for_each_cons.
  pose proof (run_op_waits op w Hle) as Hop.
  destruct (run_op op w) as [[[]|e] w1]; simpl in Hop; [by apply IH|exact Hop].
Qed.

(** X11.  The timer never has more than one wait outstanding: link
    events, messages, timer expiries, handler invocations, calls of
    [set_timer] and shutdowns, in any order and whether or not one of them
    ends in an exception, keep the number of outstanding waits at most
    one; in particular this holds from construction on. *)
Theorem timer_has_at_most_one_wait ops w :
  ((waits (timer_ (hb_service_ w)) <= 1)%nat ->
   (waits (timer_ (hb_service_ (run_ops ops w).2)) <= 1)%nat) /\
  (waits (timer_ (hb_service_ (run_ops ops (CoreHandler_init w).2).2)) <= 1)%nat.
Proof.
  split; [apply run_ops_waits|].
  apply run_ops_waits. rewrite CoreHandler_init_starts_wait. simpl. lia.
Qed.

(** X12.  [shutdown] always returns, leaves no wait outstanding and keeps
    the peer list; a second [shutdown] queues no further completion and
    leaves the timer as the first did, and the logger has been handed the
    shutdown entry twice. *)
Theorem shutdown_twice w :
  let w1 := (shutdown w).2 in
  let w2 := (shutdown w1).2 in
  (shutdown w).1 = Returned tt /\
  waits (timer_ (hb_service_ w1)) = 0%nat /\
  peers_ (hb_service_ w1) = peers_ (hb_service_ w) /\
  service_ w1 =
    service_ w ++ replicate (waits (timer_ (hb_service_ w))) operation_aborted /\
  service_ w2 = service_ w1 /\
  hb_service_ w2 = hb_service_ w1 /\
  logger_ w2 = logger_ w ++ [Log_shutting_down; Log_shutting_down].
Proof.
  intros w1 w2. unfold w2, w1. simpl.
  repeat split; [by rewrite app_nil_r|by rewrite <- app_assoc].
Qed.

(** ** Further properties of the core handler: heartbeats over time *)

Lemma trigger_pings_fires_queue (Hw : write_never_throws) ec w :
  ec_set ec = false ->
  exists w',
    trigger_pings ec w = (Returned tt, w') /\
    (forall p, sessions w' !! p =
               with_queued (pings_to p (peers_ (hb_service_ w)) (clock_reads w))
                 <$> sessions w !! p) /\
    waits (timer_ (hb_service_ w')) = 1%nat /\
    peers_ (hb_service_ w') = peers_ (hb_service_ w) /\
    clock_reads w' = (clock_reads w + length (peers_ (hb_service_ w)))%nat /\
    service_ w' =
      service_ w ++ replicate (waits (timer_ (hb_service_ w))) operation_aborted.
Proof.
  intros Hec.
  destruct (ping_loop Hw (peers_ (hb_service_ w)) w)
    as (w1 & Hrun & Hq & Hclock & (_ & _ & Hhb & Hsvc & _)).
  eexists. split.
  - unfold trigger_pings. rewrite Hec. unfold bind at 1. unfold gets.
    unfold bind at 1. rewrite Hrun. reflexivity.
  - simpl. rewrite Hhb, Hsvc. repeat split; assumption.
Qed.

Lemma io_step_expires_armed w :
  armed w ->
  io_step timer_expires w =
    (Returned tt,
     set_hb_service (set_timer_ (fun _ => {| waits := 0 |}))
       (set_service (fun _ => [ec_success]) w)).
Proof.
  intros [Hwaits Hqueue]. unfold io_step, complete_waits, modify, set_service.
  by rewrite Hwaits, Hqueue.
Qed.

Lemma heartbeat_cycle (Hw : write_never_throws) w :
  armed w ->
  exists w',
    io_run [timer_expires; run_one] w = (Returned tt, w') /\
    armed w' /\
    peers_ (hb_service_ w') = peers_ (hb_service_ w) /\
    clock_reads w' = (clock_reads w + length (peers_ (hb_service_ w)))%nat /\
    (forall p, sessions w' !! p =
               with_queued (pings_to p (peers_ (hb_service_ w)) (clock_reads w))
                 <$> sessions w !! p).
Proof.
  intros Harmed.
  set (w1 := set_service (fun _ => [])
               (set_hb_service (set_timer_ (fun _ => {| waits := 0 |}))
                  (set_service (fun _ => [ec_success]) w))).
  destruct (trigger_pings_fires_queue Hw ec_success w1 eq_refl)
    as (w' & Hrun & Hq & Hwaits & Hpeers & Hclock & Hqueue).
  exists w'. split; [|split; [|split; [|split]]].
  - unfold io_run. rewrite for_each_cons, (io_step_expires_armed w Harmed).
    rewrite for_each_cons. unfold io_step.
    cbn [service_ set_hb_service set_service]. fold w1. by rewrite Hrun.
  - split; [exact Hwaits|]. rewrite Hqueue. reflexivity.
  - exact Hpeers.
  - exact Hclock.
  - exact Hq.
Qed.

(** X13.  With a transport whose write returns normally, heartbeats go on
    for as long as the timer keeps expiring: from a timer with one wait
    outstanding and nothing queued, [k] expiries, each followed by the
    invocation of the queued handler, leave the timer in that state again
    and the peer list as it was, read the clock [k] times for each peer,
    and lengthen the queue of every live session by [k] Pings for each
    peer-list entry that designates it; a session that is gone stays
    gone. *)
Theorem heartbeat_cycles_keep_pinging (Hw : write_never_throws) k w :
  armed w ->
  exists w',
    io_run (heartbeat_cycles k) w = (Returned tt, w') /\
    armed w' /\
    peers_ (hb_service_ w') = peers_ (hb_service_ w) /\
    clock_reads w' = (clock_reads w + k * length (peers_ (hb_service_ w)))%nat /\
    (forall p,
       (fun s => length (outbound s)) <$> sessions w' !! p =
       (fun s => (length (outbound s) +
                  k * writes_to p (peers_ (hb_service_ w)))%nat)
         <$> sessions w !! p).
Proof.
  revert w. induction k as [|k IH]; intros w Harmed.
  - exists w. split; [reflexivity|]. split; [exact Harmed|]. split; [reflexivity|].
    split; [simpl; lia|]. intros p. destruct (sessions w !! p); simpl; [|done].
    f_equal. lia.
  - destruct (heartbeat_cycle Hw w Harmed) as (w1 & Hrun1 & Harmed1 & Hp1 & Hc1 & Hq1).
    destruct (IH w1 Harmed1) as (w' & Hrun & Harmed' & Hp & Hc & Hq).
    exists w'. split; [|split; [exact Harmed'|split; [congruence|split]]].
    + unfold heartbeat_cycles, io_run in *. cbn [replicate concat].
      rewrite for_each_app, Hrun1. exact Hrun.
    + rewrite Hc, Hc1, Hp1. lia.
    + intros p. rewrite Hq, Hq1, Hp1.
      destruct (sessions w !! p) as [s|]; simpl; [|done].
      f_equal. rewrite length_app, pings_to_length. lia.
Qed.

(** X14.  A heartbeat measured end to end, with a transport whose write
    returns normally.  The Ping that [send_ping] queues carries the clock
    reading [t1]; the peer's handler answers it with a Pong carrying the
    same value; when that Pong comes back and the clock reads [t2], the
    handler logs [t2 - t1], provided [0 < t1 <= t2 < 2^64]. *)
Theorem ping_pong_round_trip (Hw : write_never_throws)
    linkAB linkBA wA wB wA' sA sB :
  sessions wA !! net linkAB = Some sA ->
  sessions wB !! net linkBA = Some sB ->
  let t1 := steady_clock_now (clock_reads wA) in
  let t2 := steady_clock_now (clock_reads wA') in
  let ping := ping_at (clock_reads wA) in
  let pong := pong_for (to_uint64 t1) in
  sessions (send_ping linkAB wA).2 !! net linkAB = Some (with_queued [ping] sA) /\
  sessions (handle_message linkBA ping wB).2 !! net linkBA =
    Some (with_queued [pong] sB) /\
  (0 < t1 -> t1 <= t2 -> t2 < 2 ^ 64 ->
   logger_ (handle_message linkAB pong wA').2 =
     logger_ wA' ++ [Log_ping_time (t2 - t1)]).
Proof.
  intros HsA HsB t1 t2 ping pong. split; [|split].
  - rewrite (send_ping_run Hw). cbn [snd]. rewrite sent_lookup, Nat.eqb_refl.
    cbn [sessions set_clock_reads]. by rewrite HsA.
  - unfold handle_message, ping, ping_at. cbn [data]. unfold handle_ping.
    cbn [data Ping_timestamp]. rewrite (send_pong_run Hw). cbn [snd].
    rewrite sent_lookup, Nat.eqb_refl. by rewrite HsB.
  - intros Hpos Hle Hlt.
    assert (Ht1 : to_uint64 t1 = t1) by (apply Z.mod_small; lia).
    unfold handle_message, pong, pong_for. cbn [data]. unfold handle_pong.
    cbn [data Pong_timestamp]. unfold bind, now_ms. rewrite Ht1.
    destruct (Z.eqb_spec t1 0) as [Heq|_]; [lia|]. simpl.
    fold t2. do 3 f_equal. apply Z.mod_small. lia.
Qed.

(** X15.  Only a Ping is answered.  For a message of any other kind the
    handler returns normally and writes to no session, whatever the
    transport's write would do; what it hands the logger for a Pong is at
    most one entry, whose value lies in the unsigned 64-bit range. *)
Theorem handle_message_answers_only_pings link message w :
  (forall ts, data message <> Data_Ping ts) ->
  (handle_message link message w).1 = Returned tt /\
  sessions (handle_message link message w).2 = sessions w /\
  (forall ts, data message = Data_Pong ts ->
     logger_ (handle_message link message w).2 = logger_ w \/
     exists ms, 0 <= ms < 2 ^ 64 /\
       logger_ (handle_message link message w).2 = logger_ w ++ [Log_ping_time ms]).
Proof.
  intros Hping. unfold handle_message.
  destruct (data message) as [|ts|ts|tag] eqn:Hdata.
  - repeat split. discriminate.
  - by destruct (Hping ts).
  - unfold handle_pong. rewrite Hdata. cbn [Pong_timestamp]. unfold bind, now_ms.
    destruct (negb (ts =? 0)); simpl.
    + repeat split. intros _ _. right. eexists. split; [|reflexivity].
      unfold to_uint64. apply Z.mod_pos_bound. lia.
    + repeat split. intros _ _. by left.
  - repeat split. discriminate.
Qed.

(** ** Shutdown after the deadline has passed *)

(** C5, where the code departs from it.  [timer_.cancel()] only reaches
    waits that are still outstanding.  When the deadline has passed before
    [shutdown] runs, the completion is already queued with an error code
    that is not set: [shutdown] cancels nothing and leaves it queued, and
    the handler invoked afterwards runs a round, reading the clock once
    for each peer and writing a Ping to every session that [stop_all] has
    left, and starts the next wait, so the timer is armed as before the
    shutdown. *)
Theorem shutdown_after_expiry_rounds_continue (Hw : write_never_throws) w :
  armed w ->
  let down := (shutdown (io_step timer_expires w).2).2 in
  service_ down = [ec_success] /\
  waits (timer_ (hb_service_ down)) = 0%nat /\
  exists w',
    io_step run_one down = (Returned tt, w') /\
    armed w' /\
    peers_ (hb_service_ w') = peers_ (hb_service_ w) /\
    clock_reads w' = (clock_reads w + length (peers_ (hb_service_ w)))%nat /\
    (forall p, sessions w' !! p =
               with_queued (pings_to p (peers_ (hb_service_ w)) (clock_reads w))
                 <$> stop_all (sessions w) !! p).
Proof.
  intros Harmed down. unfold down.
  rewrite (io_step_expires_armed w Harmed). cbn [snd].
  set (w1 := (shutdown _).2).
  assert (Hqueue : service_ w1 = [ec_success]) by reflexivity.
  split; [exact Hqueue|]. split; [reflexivity|].
  destruct (trigger_pings_fires_queue Hw ec_success
              (set_service (fun _ => []) w1) eq_refl)
    as (w' & Hrun & Hq & Hwaits & Hpeers & Hclock & Hsvc).
  exists w'. split; [|split; [|split; [|split]]].
  - unfold io_step. rewrite Hqueue. exact Hrun.
  - split; [exact Hwaits|]. rewrite Hsvc. reflexivity.
  - exact Hpeers.
  - exact Hclock.
  - exact Hq.
Qed.

End Properties.

(** ** The properties in the small world *)

Lemma spec_write_never_throws : @write_never_throws spec_collaborators.
Proof. intros s fbb. reflexivity. Qed.



Lemma send_tracked_registers_then_sends_witness :
  sessions world0 !! net linkB = None /\
  (@send_tracked spec_collaborators linkB 43%N hello 9%nat world0).1 =
    Returned LINK_GONE /\
  is_pending 43%N
    (track_service__
       (@send_tracked spec_collaborators linkB 43%N hello 9%nat world0).2) = true.
Proof.
  pose proof (@send_tracked_registers_then_sends spec_collaborators
                linkB 43%N hello 9%nat world0) as Hthm.
  cbv zeta in Hthm. destruct Hthm as (_ & _ & Hgone).
  split; [reflexivity|].
  destruct (Hgone eq_refl) as [Hres Htrack].
  split; [exact Hres|]. rewrite Htrack. vm_compute. reflexivity.
Defined.

(** The request with id 42 is pending in [world0] and the specification's
    [track] refuses it, yet [send_tracked] returns OK for it; and a
    request registered through [send_tracked] has a timeout of five
    seconds, there being no argument to ask for another. *)
Lemma send_tracked_duplicate_id_counterexample :
  is_pending 42%N (track_service__ world0) = true /\
  (track (track_service__ world0) linkA 42%N 9%nat (seconds 30)).2 =
    DuplicateCorrelation /\
  (@send_tracked spec_collaborators linkA 42%N hello 9%nat world0).1 = Returned OK /\
  request_timeout <$>
    (track_service__
       (@send_tracked spec_collaborators linkA 43%N hello 9%nat world0).2
     : gmap N PendingRequest) !! 43%N = Some (seconds 5).
Proof. vm_compute. repeat split. Qed.

Lemma send_tracked_fixed_timeout_result_of_send_witness :
  request_timeout <$>
    (track_service__
       (@send_tracked spec_collaborators linkA 43%N hello 9%nat world0).2
     : gmap N PendingRequest) !! 43%N = Some (seconds 5) /\
  (@send_tracked spec_collaborators linkA 42%N hello 9%nat world0).1 =
    (send linkA hello world0).1 /\
  (@send_tracked spec_collaborators linkA 42%N hello 9%nat
     (set_track_service (fun _ => ∅) world0)).1 =
  (@send_tracked spec_collaborators linkA 42%N hello 9%nat world0).1.
Proof.
  destruct (@send_tracked_fixed_timeout_result_of_send spec_collaborators
              linkA 42%N hello 9%nat world0) as (_ & Hres & Hany).
  destruct (@send_tracked_fixed_timeout_result_of_send spec_collaborators
              linkA 43%N hello 9%nat world0) as (Hfresh & _ & _).
  split; [rewrite Hfresh; vm_compute; reflexivity|].
  split; [exact Hres|exact (Hany ∅)].
Defined.

Lemma broadcast_writes_resolvable_skips_gone_witness :
  @write_never_throws spec_collaborators /\
  peer_services (services_ world0) Service_Core CLIENT = [linkA; linkB] /\
  exists w',
    broadcast Service_Core CLIENT hello world0 = (Returned OK, w') /\
    sessions w' !! net linkA = Some {| outbound := [hello] |} /\
    sessions w' !! net linkB = None.
Proof.
  pose proof spec_write_never_throws as Hw.
  destruct (broadcast_writes_resolvable_skips_gone Hw Service_Core CLIENT hello world0)
    as (w' & Hrun & Hq & _).
  split; [exact Hw|]. split; [reflexivity|].
  exists w'. split; [exact Hrun|].
  split; rewrite Hq; vm_compute; reflexivity.
Defined.

Lemma handle_event_membership_witness :
  tracked linkB world0 = false /\
  handle_event linkB LINK_DOWN world0 = (Returned tt, world0) /\
  exists w',
    deliver_events [(linkB, LINK_UP); (linkA, LINK_DOWN); (linkB, LINK_UP)] world0 =
      (Returned tt, w') /\
    tracked linkA w' = false /\
    tracked linkB w' = true.
Proof.
  destruct (handle_event_membership linkB linkA
              [(linkB, LINK_UP); (linkA, LINK_DOWN); (linkB, LINK_UP)] world0)
    as (_ & _ & (w' & Hrun & HA & _) & Hdown).
  destruct (handle_event_membership linkB linkB
              [(linkB, LINK_UP); (linkA, LINK_DOWN); (linkB, LINK_UP)] world0)
    as (_ & _ & (w'' & Hrun' & HB & _) & _).
  split; [reflexivity|]. split; [apply Hdown; reflexivity|].
  exists w'. split; [exact Hrun|]. split; [rewrite HA; reflexivity|].
  rewrite Hrun in Hrun'. injection Hrun' as <-. rewrite HB. reflexivity.
Defined.

Lemma handle_ping_echoes_timestamp_witness :
  @write_never_throws spec_collaborators /\
  sessions world0 !! net linkA = Some {| outbound := [] |} /\
  exists w',
    handle_message linkA
      {| service := Service_Core; tracking_id := None; data := Data_Ping 77 |}
      world0 = (Returned tt, w') /\
    sessions w' !! net linkA = Some {| outbound := [pong_for 77] |} /\
    hb_service_ w' = hb_service_ world0.
Proof.
  pose proof spec_write_never_throws as Hw.
  pose proof (handle_ping_echoes_timestamp Hw linkA Service_Core None 77 world0) as Hthm.
  cbv zeta in Hthm. destruct Hthm as (w' & Hrun & Hhb & _ & _ & Hlive & _).
  split; [exact Hw|]. split; [reflexivity|].
  exists w'. split; [exact Hrun|]. split; [|exact Hhb].
  apply (Hlive {| outbound := [] |}). reflexivity.
Defined.

(** In [world0] the clock reads 1000.  A Pong that echoes 0 leaves the
    log empty, and a Pong that echoes 2000 is logged with 2^64 - 1000,
    not with the difference 1000 - 2000. *)
Lemma handle_pong_elapsed_counterexample :
  @steady_clock_now spec_collaborators (clock_reads world0) = 1000 /\
  logger_ (handle_message linkA
             {| service := Service_Core; tracking_id := None; data := Data_Pong 0 |}
             world0).2 = [] /\
  logger_ (handle_message linkA
             {| service := Service_Core; tracking_id := None; data := Data_Pong 2000 |}
             world0).2 = [Log_ping_time (2 ^ 64 - 1000)] /\
  2 ^ 64 - 1000 <> 1000 - 2000.
Proof. vm_compute. repeat split. discriminate. Qed.

Lemma handle_pong_logs_elapsed_witness :
  400 <> 0 /\
  0 <= 400 <= @steady_clock_now spec_collaborators (clock_reads world0) /\
  @steady_clock_now spec_collaborators (clock_reads world0) < 2 ^ 64 /\
  logger_ (handle_message linkA
             {| service := Service_Core; tracking_id := None; data := Data_Pong 400 |}
             world0).2 = [Log_ping_time 600].
Proof.
  assert (Hts : 400 <> 0) by discriminate.
  assert (Hle : 0 <= 400 <= @steady_clock_now spec_collaborators (clock_reads world0))
    by (vm_compute; split; discriminate).
  assert (Hlt : @steady_clock_now spec_collaborators (clock_reads world0) < 2 ^ 64)
    by (vm_compute; reflexivity).
  pose proof (handle_pong_logs_elapsed linkA Service_Core None 400 world0 Hts) as Hthm.
  cbv zeta in Hthm. destruct Hthm as [Hrun Hplain].
  split; [exact Hts|]. split; [exact Hle|]. split; [exact Hlt|].
  rewrite Hrun, (Hplain Hle Hlt). vm_compute. reflexivity.
Defined.

Lemma trigger_pings_round_and_cancellation_witness :
  @write_never_throws spec_collaborators /\
  ec_set ec_success = false /\
  ec_set operation_aborted = true /\
  Forall (fun ec => ec_set ec = true) (service_ world0) /\
  (exists w',
     trigger_pings ec_success world0 = (Returned tt, w') /\
     sessions w' !! net linkA =
       Some {| outbound := [@ping_at spec_collaborators 0] |} /\
     waits (timer_ (hb_service_ w')) = 1%nat) /\
  trigger_pings operation_aborted world0 = (Returned tt, world0) /\
  (exists w1 w2,
     shutdown world0 = (Returned tt, w1) /\
     io_run [run_one; timer_expires; run_one] w1 = (Returned tt, w2) /\
     sessions w2 = sessions w1 /\
     waits (timer_ (hb_service_ w2)) = 0%nat).
Proof.
  pose proof spec_write_never_throws as Hw.
  assert (Hqueue : Forall (fun ec => ec_set ec = true) (service_ world0))
    by constructor.
  destruct (trigger_pings_round_and_cancellation Hw ec_success
              [run_one; timer_expires; run_one] world0) as (Hfire & _ & Hdown).
  destruct (trigger_pings_round_and_cancellation Hw operation_aborted [] world0)
    as (_ & Habort & _).
  split; [exact Hw|]. split; [reflexivity|]. split; [reflexivity|].
  split; [exact Hqueue|]. split; [|split].
  - destruct (Hfire eq_refl) as (w' & Hrun & Hq & Hwaits & _).
    exists w'. split; [exact Hrun|]. split; [|exact Hwaits].
    rewrite Hq. vm_compute. reflexivity.
  - apply Habort. reflexivity.
  - destruct (Hdown Hqueue) as (w1 & w2 & Hshut & Hrun & Hs & _ & Hwaits).
    exists w1, w2. repeat split; assumption.
Defined.

Lemma peer_list_keeps_duplicates_witness :
  @write_never_throws spec_collaborators /\
  sessions world0 !! net linkA = Some {| outbound := [] |} /\
  copies linkA world0 = 1%nat /\
  copies linkA (handle_event linkA LINK_UP (handle_event linkA LINK_UP world0).2).2 =
    3%nat /\
  (exists w',
     trigger_pings ec_success
       (handle_event linkA LINK_UP (handle_event linkA LINK_UP world0).2).2 =
       (Returned tt, w') /\
     sessions w' !! net linkA =
       Some {| outbound := [@ping_at spec_collaborators 0;
                            @ping_at spec_collaborators 1;
                            @ping_at spec_collaborators 2] |}) /\
  copies linkA
    (handle_event linkA LINK_DOWN
       (handle_event linkA LINK_UP (handle_event linkA LINK_UP world0).2).2).2 = 0%nat.
Proof.
  pose proof spec_write_never_throws as Hw.
  pose proof (peer_list_keeps_duplicates Hw linkA world0) as Hthm.
  cbv zeta in Hthm. destruct Hthm as (Hcopies & _ & Hround & Hdown).
  split; [exact Hw|]. split; [reflexivity|]. split; [reflexivity|].
  split; [rewrite Hcopies; reflexivity|]. split; [|exact Hdown].
  destruct (Hround {| outbound := [] |} eq_refl) as (w' & Hrun & Hq).
  exists w'. split; [exact Hrun|]. rewrite Hq. reflexivity.
Defined.

(** ** The timer after an expiry that shutdown comes too late for *)

(** When the deadline has passed before [shutdown] runs, the completion
    is already queued as successful; the cancellation finds no wait to
    cancel, and the queued handler runs a round and starts the next wait. *)
Lemma shutdown_after_expiry_still_fires :
  let expired := (io_step timer_expires world0).2 in
  service_ expired = [ec_success] /\
  waits (timer_ (hb_service_ (io_run [run_one] (shutdown expired).2).2)) = 1%nat.
Proof. vm_compute. split; reflexivity. Qed.

(** ** The further properties in small worlds *)

Lemma sends_queue_in_order_witness :
  @write_never_throws spec_collaborators /\
  sessions world0 !! net linkA = Some {| outbound := [] |} /\
  sessions (after_sends linkA [hello; pong_for 5; hello] world0) !! net linkA =
    Some {| outbound := [hello; pong_for 5; hello] |}.
Proof.
  pose proof spec_write_never_throws as Hw.
  split; [exact Hw|]. split; [reflexivity|].
  apply (sends_queue_in_order Hw linkA [hello; pong_for 5; hello] world0
           {| outbound := [] |}).
  reflexivity.
Defined.

Lemma broadcast_is_send_to_each_witness :
  @write_never_throws spec_collaborators /\
  broadcast Service_Core CLIENT hello world0 =
    (Returned OK, (send linkB hello (send linkA hello world0).2).2).
Proof.
  pose proof spec_write_never_throws as Hw.
  split; [exact Hw|].
  apply (broadcast_is_send_to_each Hw Service_Core CLIENT hello world0).
Defined.

Lemma broadcast_all_gone_witness :
  peer_services (services_ world_gone) Service_Core CLIENT = [linkA; linkB] /\
  all_gone (peer_services (services_ world_gone) Service_Core CLIENT) world_gone /\
  broadcast Service_Core CLIENT hello world_gone = (Returned OK, world_gone).
Proof.
  assert (Hgone : all_gone (peer_services (services_ world_gone) Service_Core CLIENT)
                    world_gone)
    by (repeat constructor).
  split; [reflexivity|]. split; [exact Hgone|].
  apply (broadcast_all_gone Service_Core CLIENT hello world_gone Hgone).
Defined.

Lemma broadcast_propagates_write_failure_witness :
  peer_services (services_ (faulty_world [hello])) Service_Core CLIENT =
    [linkB] ++ linkA :: [] /\
  all_gone [linkB] (faulty_world [hello]) /\
  sessions (faulty_world [hello]) !! net linkA = Some {| outbound := [hello] |} /\
  @write_throws faulty_collaborators {| outbound := [hello] |} hello =
    Some out_of_range /\
  broadcast Service_Core CLIENT hello (faulty_world [hello]) =
    (Thrown out_of_range, faulty_world [hello]) /\
  send linkA hello (faulty_world [hello]) =
    (Returned LINK_GONE, faulty_world [hello]).
Proof.
  assert (Hgone : all_gone [linkB] (faulty_world [hello])) by (repeat constructor).
  destruct (@broadcast_propagates_write_failure faulty_collaborators
              Service_Core CLIENT hello (faulty_world [hello])
              [linkB] linkA [] {| outbound := [hello] |} out_of_range
              eq_refl Hgone eq_refl eq_refl) as [Hthrown Hsend].
  split; [reflexivity|]. split; [exact Hgone|]. split; [reflexivity|].
  split; [reflexivity|]. split; [exact Hthrown|exact (Hsend eq_refl)].
Defined.

Lemma handle_event_up_then_down_witness :
  tracked linkB world0 = false /\
  (handle_event linkB LINK_DOWN (handle_event linkB LINK_UP world0).2).2 = world0.
Proof.
  split; [reflexivity|].
  apply (handle_event_up_then_down linkB world0). reflexivity.
Defined.

Lemma handle_event_down_is_selective_witness :
  uuid linkA' = uuid linkA /\
  uuid linkA' <> uuid linkB /\
  copies linkA (handle_event linkA' LINK_DOWN world0).2 = 0%nat /\
  copies linkB (handle_event linkA' LINK_DOWN world0).2 = copies linkB world0.
Proof.
  assert (Hne : uuid linkA' <> uuid linkB) by discriminate.
  pose proof (handle_event_down_is_selective linkA' linkA world0) as HA.
  pose proof (handle_event_down_is_selective linkA' linkB world0) as HB.
  cbv zeta in HA, HB.
  destruct HA as (Hsame & _ & _ & _). destruct HB as (_ & Hother & _ & _).
  split; [reflexivity|]. split; [exact Hne|].
  split; [exact (Hsame eq_refl)|exact (Hother Hne)].
Defined.

Lemma trigger_pings_all_gone_witness :
  ec_set ec_success = false /\
  all_gone (peers_ (hb_service_ world_gone)) world_gone /\
  exists w',
    trigger_pings ec_success world_gone = (Returned tt, w') /\
    sessions w' = sessions world_gone /\
    waits (timer_ (hb_service_ w')) = 1%nat /\
    clock_reads w' = 1%nat.
Proof.
  assert (Hgone : all_gone (peers_ (hb_service_ world_gone)) world_gone)
    by (repeat constructor).
  destruct (trigger_pings_all_gone ec_success world_gone eq_refl Hgone)
    as (w' & Hrun & Hs & Hwaits & _ & Hclock).
  split; [reflexivity|]. split; [exact Hgone|].
  exists w'. repeat split; assumption.
Defined.

Lemma trigger_pings_write_failure_witness :
  ec_set ec_success = false /\
  all_gone [linkB] (faulty_world []) /\
  all_gone [] (faulty_world [hello]) /\
  @write_throws faulty_collaborators {| outbound := [] |}
    (@ping_at faulty_collaborators 1) = Some other_exception /\
  @write_throws faulty_collaborators {| outbound := [hello] |}
    (@ping_at faulty_collaborators 1) = Some out_of_range /\
  (exists w',
     trigger_pings ec_success (faulty_world []) = (Thrown other_exception, w') /\
     hb_service_ w' = hb_service_ (faulty_world [])) /\
  (exists w',
     trigger_pings ec_success (faulty_world [hello]) = (Returned tt, w') /\
     sessions w' = sessions (faulty_world [hello]) /\
     waits (timer_ (hb_service_ w')) = 1%nat).
Proof.
  assert (Hgone0 : all_gone [linkB] (faulty_world [])) by (repeat constructor).
  assert (Hgone1 : all_gone [linkB] (faulty_world [hello])) by (repeat constructor).
  assert (Hpost : all_gone [] (faulty_world [hello])) by constructor.
  destruct (@trigger_pings_write_failure faulty_collaborators ec_success
              (faulty_world []) [linkB] linkA [] {| outbound := [] |}
              other_exception eq_refl eq_refl Hgone0 eq_refl eq_refl)
    as [Hother _].
  destruct (@trigger_pings_write_failure faulty_collaborators ec_success
              (faulty_world [hello]) [linkB] linkA [] {| outbound := [hello] |}
              out_of_range eq_refl eq_refl Hgone1 eq_refl eq_refl)
    as [_ Hrange].
  split; [reflexivity|]. split; [exact Hgone0|]. split; [exact Hpost|].
  split; [reflexivity|]. split; [reflexivity|]. split.
  - destruct (Hother eq_refl) as (w' & Hrun & _ & Hhb & _). by exists w'.
  - destruct (Hrange eq_refl Hpost) as (w' & Hrun & Hs & Hwaits). by exists w'.
Defined.

Lemma handle_message_keeps_handler_state_witness :
  (forall ts, data hello <> Data_Ping ts) /\
  (forall ts, data hello <> Data_Pong ts) /\
  handle_message linkA hello world0 =
    (Returned tt,
     set_logger (fun l => l ++ [Log_unhandled_core_message 1%N]) world0).
Proof.
  assert (Hping : forall ts, data hello <> Data_Ping ts) by (intros ts; discriminate).
  assert (Hpong : forall ts, data hello <> Data_Pong ts) by (intros ts; discriminate).
  destruct (handle_message_keeps_handler_state linkA hello world0) as [_ Hlog].
  split; [exact Hping|]. split; [exact Hpong|]. exact (Hlog Hping Hpong).
Defined.

Lemma timer_has_at_most_one_wait_witness :
  (waits (timer_ (hb_service_ world0)) <= 1)%nat /\
  (waits (timer_ (hb_service_
     (run_ops [op_set_timer; op_io timer_expires; op_event linkB LINK_UP;
               op_set_timer; op_io run_one; op_shutdown; op_io run_one]
        world0).2)) <= 1)%nat.
Proof.
  assert (Hle : (waits (timer_ (hb_service_ world0)) <= 1)%nat) by (simpl; lia).
  split; [exact Hle|].
  exact (proj1 (timer_has_at_most_one_wait
                  [op_set_timer; op_io timer_expires; op_event linkB LINK_UP;
                   op_set_timer; op_io run_one; op_shutdown; op_io run_one]
                  world0) Hle).
Defined.

Lemma heartbeat_cycles_keep_pinging_witness :
  @write_never_throws spec_collaborators /\
  armed world0 /\
  exists w',
    io_run (heartbeat_cycles 3) world0 = (Returned tt, w') /\
    armed w' /\
    clock_reads w' = 3%nat /\
    (fun s => length (outbound s)) <$> sessions w' !! net linkA = Some 3%nat.
Proof.
  pose proof spec_write_never_throws as Hw.
  assert (Harmed : armed world0) by (split; reflexivity).
  destruct (heartbeat_cycles_keep_pinging Hw 3 world0 Harmed)
    as (w' & Hrun & Harmed' & _ & Hclock & Hq).
  split; [exact Hw|]. split; [exact Harmed|].
  exists w'. split; [exact Hrun|]. split; [exact Harmed'|].
  split; [exact Hclock|]. rewrite Hq. reflexivity.
Defined.

Lemma ping_pong_round_trip_witness :
  @write_never_throws spec_collaborators /\
  sessions world0 !! net linkA = Some {| outbound := [] |} /\
  0 < @steady_clock_now spec_collaborators 0 /\
  @steady_clock_now spec_collaborators 0 <= @steady_clock_now spec_collaborators 5 /\
  @steady_clock_now spec_collaborators 5 < 2 ^ 64 /\
  logger_ (handle_message linkA (pong_for 1000)
             (set_clock_reads (fun _ => 5%nat) world0)).2 = [Log_ping_time 35].
Proof.
  pose proof spec_write_never_throws as Hw.
  assert (Hpos : 0 < @steady_clock_now spec_collaborators 0) by reflexivity.
  assert (Hle : @steady_clock_now spec_collaborators 0 <=
                @steady_clock_now spec_collaborators 5) by discriminate.
  assert (Hlt : @steady_clock_now spec_collaborators 5 < 2 ^ 64) by reflexivity.
  pose proof (ping_pong_round_trip Hw linkA linkA world0 world0
                (set_clock_reads (fun _ => 5%nat) world0)
                {| outbound := [] |} {| outbound := [] |} eq_refl eq_refl) as Hthm.
  cbv zeta in Hthm. destruct Hthm as (_ & _ & Hlog).
  split; [exact Hw|]. split; [reflexivity|]. split; [exact Hpos|].
  split; [exact Hle|]. split; [exact Hlt|].
  exact (Hlog Hpos Hle Hlt).
Defined.

Lemma handle_message_answers_only_pings_witness :
  (forall ts, data (pong_for 400) <> Data_Ping ts) /\
  data (pong_for 400) = Data_Pong 400 /\
  (handle_message linkA (pong_for 400) world0).1 = Returned tt /\
  sessions (handle_message linkA (pong_for 400) world0).2 = sessions world0.
Proof.
  assert (Hping : forall ts, data (pong_for 400) <> Data_Ping ts)
    by (intros ts; discriminate).
  destruct (handle_message_answers_only_pings linkA (pong_for 400) world0 Hping)
    as (Hret & Hs & _).
  split; [exact Hping|]. split; [reflexivity|]. split; [exact Hret|exact Hs].
Defined.

Lemma shutdown_after_expiry_rounds_continue_witness :
  @write_never_throws spec_collaborators /\
  armed world0 /\
  service_ (shutdown (io_step timer_expires world0).2).2 = [ec_success] /\
  exists w',
    io_step run_one (shutdown (io_step timer_expires world0).2).2 =
      (Returned tt, w') /\
    armed w' /\
    peers_ (hb_service_ w') = [linkA] /\
    clock_reads w' = 1%nat.
Proof.
  pose proof spec_write_never_throws as Hw.
  assert (Harmed : armed world0) by (split; reflexivity).
  pose proof (shutdown_after_expiry_rounds_continue Hw world0 Harmed) as Hthm.
  cbv zeta in Hthm.
  destruct Hthm as (Hqueue & _ & w' & Hrun & Harmed' & Hpeers & Hclock & _).
  split; [exact Hw|]. split; [exact Harmed|]. split; [exact Hqueue|].
  exists w'. repeat split; try assumption; apply Harmed'.
Defined.
